(** * Metadata module ([src/module/metadata.js])

    A shallow embedding of the [Metadata] class: the field extraction of
    [fetchNew], the get-or-create of entities ([getMetaId]), the association
    attacher ([attachMeta]), the creation path ([getMetadataId]) and the read
    path ([getMetadataById], [getMetaByMetadataId], [getMetaInfoByMetaId]).

    The collaborators the module imports ([database], [cache], [file],
    [ignore], [node-fetch], [dom-parser]) are not part of the module; they are
    modelled by the state of a [World] below. *)

From Stdlib Require Import String Ascii List Bool Arith PeanoNat Lia Permutation.
Import ListNotations.
Local Open Scope string_scope.
Local Open Scope list_scope.
Local Set Warnings "-register-all".

(* ================================================================== *)
(** ** JavaScript values used by the module *)

Module Js.

(** Truthiness of a string: only the empty string is falsy. *)
Definition truthy (s : string) : bool :=
  match s with EmptyString => false | String _ _ => true end.

(** [s.indexOf(sub) !== -1]. *)
Definition includes (sub s : string) : bool :=
  match String.index 0 sub s with Some _ => true | None => false end.

Definition is_space (c : ascii) : bool :=
  let n := nat_of_ascii c in
  Nat.eqb n 32 || Nat.eqb n 9 || Nat.eqb n 10 || Nat.eqb n 11
  || Nat.eqb n 12 || Nat.eqb n 13.

Fixpoint trimStart (s : string) : string :=
  match s with
  | EmptyString => EmptyString
  | String c r => if is_space c then trimStart r else s
  end.

Fixpoint trimEnd (s : string) : string :=
  match s with
  | EmptyString => EmptyString
  | String c r =>
      match trimEnd r with
      | EmptyString => if is_space c then EmptyString else String c EmptyString
      | r' => String c r'
      end
  end.

(** [s.trim()]. *)
Definition trim (s : string) : string := trimEnd (trimStart s).

(** [s.split(sep)] for a one-character separator: the pieces between the
    separators, in order; never the empty list. *)
Fixpoint split (sep : ascii) (s : string) : list string :=
  match s with
  | EmptyString => [EmptyString]
  | String c r =>
      if Ascii.eqb c sep then EmptyString :: split sep r
      else match split sep r with
           | [] => [String c EmptyString]
           | w :: ws => String c w :: ws
           end
  end.

(** What an expression evaluates to: a value or a thrown error. *)
Inductive error := TypeError | TransportError | StoreError.

Inductive completion (A : Type) :=
| Return (a : A)
| Throw (e : error).
Arguments Return {A} a.
Arguments Throw {A} e.

Definition bind {A B} (c : completion A) (k : A -> completion B) : completion B :=
  match c with
  | Return a => k a
  | Throw e => Throw e
  end.

(** A [for] loop whose body may throw: the first throw leaves the loop. *)
Fixpoint for_each {A S} (body : A -> S -> completion S) (l : list A) (s : S)
  : completion S :=
  match l with
  | [] => Return s
  | x :: r => bind (body x s) (for_each body r)
  end.

End Js.
Import Js.

(* ================================================================== *)
(** ** The parsed document ([dom-parser]) *)

Module Dom.

Record attribute := { name : string; value : string }.

Inductive node :=
| TextNode (text : string)
| Element (nodeName : string) (attributes : list attribute) (childNodes : list node).

(** What [parser.parseFromString] returns: the top-level nodes. *)
Definition document := list node.

Definition attributes_of (n : node) : list attribute :=
  match n with TextNode _ => [] | Element _ a _ => a end.

Definition children_of (n : node) : list node :=
  match n with TextNode _ => [] | Element _ _ c => c end.

Definition is_element (n : node) : bool :=
  match n with TextNode _ => false | Element _ _ _ => true end.

Definition firstChild (n : node) : option node := hd_error (children_of n).
Definition lastChild (n : node) : option node := hd_error (rev (children_of n)).

Fixpoint textContent (n : node) : string :=
  match n with
  | TextNode t => t
  | Element _ _ cs => String.concat "" (map textContent cs)
  end.

(** The nodes below [n], in document order. *)
Fixpoint descendants (n : node) : list node :=
  match n with
  | TextNode _ => []
  | Element _ _ cs => flat_map (fun c => c :: descendants c) cs
  end.

Definition has_tag (tag : string) (n : node) : bool :=
  match n with
  | TextNode _ => false
  | Element nm _ _ => String.eqb nm tag
  end.

Definition class_attr (n : node) : option string :=
  option_map value
    (find (fun a => String.eqb (name a) "class") (attributes_of n)).

(** The class attribute holds [cls] as one of its space-separated words. *)
Definition has_class (cls : string) (n : node) : bool :=
  is_element n &&
  match class_attr n with
  | Some v => existsb (String.eqb cls) (Js.split " "%char v)
  | None => false
  end.

Definition getElementsByTagName (n : node) (tag : string) : list node :=
  filter (has_tag tag) (descendants n).

(** [dom.getElementsByClassName(cls)] on the whole document. *)
Definition getElementsByClassName (d : document) (cls : string) : list node :=
  filter (has_class cls) (flat_map (fun c => c :: descendants c) d).

End Dom.
Import Dom.

(* ================================================================== *)
(** ** Field extraction: the second half of [fetchNew] (lines 204-273) *)

Record star_info := { star_name : string; star_img : string }.

Record JAVinfo := {
  title : string;
  cover : string;
  studio : string;
  series : string;
  tags : list string;
  stars : list star_info;
  releaseDate : string
}.

Definition empty_info : JAVinfo :=
  {| title := ""; cover := ""; studio := ""; series := "";
     tags := []; stars := []; releaseDate := "" |}.

Definition set_studio (v : string) (d : JAVinfo) : JAVinfo :=
  {| title := title d; cover := cover d; studio := v; series := series d;
     tags := tags d; stars := stars d; releaseDate := releaseDate d |}.

Definition set_series (v : string) (d : JAVinfo) : JAVinfo :=
  {| title := title d; cover := cover d; studio := studio d; series := v;
     tags := tags d; stars := stars d; releaseDate := releaseDate d |}.

Definition push_tag (v : string) (d : JAVinfo) : JAVinfo :=
  {| title := title d; cover := cover d; studio := studio d; series := series d;
     tags := tags d ++ [v]; stars := stars d; releaseDate := releaseDate d |}.

Definition push_star (v : star_info) (d : JAVinfo) : JAVinfo :=
  {| title := title d; cover := cover d; studio := studio d; series := series d;
     tags := tags d; stars := stars d ++ [v]; releaseDate := releaseDate d |}.

Definition set_title_cover (t c : string) (d : JAVinfo) : JAVinfo :=
  {| title := t; cover := c; studio := studio d; series := series d;
     tags := tags d; stars := stars d; releaseDate := releaseDate d |}.

Definition set_releaseDate (v : string) (d : JAVinfo) : JAVinfo :=
  {| title := title d; cover := cover d; studio := studio d; series := series d;
     tags := tags d; stars := stars d; releaseDate := v |}.

(** The body run for one [href] attribute of a link (lines 228-238). *)
Definition scan_href (text v : string) (data : JAVinfo) : JAVinfo :=
  if negb (truthy (studio data)) && includes "/ja/studio/" v then set_studio text data
  else if negb (truthy (series data)) && includes "/ja/series/" v then set_series text data
  else if includes "/ja/genre/" v then push_tag text data
  else data.

(** One link of the info block: every attribute named [href] is inspected. *)
Definition scan_link (item : node) (data : JAVinfo) : JAVinfo :=
  fold_left
    (fun d attr =>
       if String.eqb (name attr) "href"
       then scan_href (textContent item) (value attr) d
       else d)
    (attributes_of item) data.

Definition star_marker (v : string) : bool :=
  includes "/actress/" v || includes "nowprinting" v.

Definition cover_marker (v : string) : bool :=
  includes "/cover/" v || includes "digital/video" v.

(** One image of the media block (lines 245-258).  [attrs[1].value] throws
    when the image has a single attribute. *)
Definition scan_img (item : node) (data : JAVinfo) : completion JAVinfo :=
  let attrs := attributes_of item in
  match nth_error attrs 0 with
  | None => Return data
  | Some a0 =>
      if star_marker (value a0) then
        match nth_error attrs 1 with
        | None => Throw TypeError
        | Some a1 =>
            Return (push_star {| star_name := trim (value a1);
                                 star_img := trim (value a0) |} data)
        end
      else if cover_marker (value a0) then
        match nth_error attrs 1 with
        | None => Throw TypeError
        | Some a1 => Return (set_title_cover (value a1) (value a0) data)
        end
      else Return data
  end.

Definition date_marker : string := "発売日:".

(** One paragraph of the info block (lines 263-268). *)
Definition scan_p (item : node) (data : JAVinfo) : completion JAVinfo :=
  if truthy (releaseDate data) then Return data
  else
    match firstChild item with
    | None => Return data
    | Some fc =>
        if includes date_marker (textContent fc) then
          match lastChild item with
          | None => Throw TypeError
          | Some lc => Return (set_releaseDate (trim (textContent lc)) data)
          end
        else Return data
    end.

(** Lines 204-273: [None] is the [undefined] returned when the document has
    no info block. *)
Definition extractFields (dom : document) : completion (option JAVinfo) :=
  match getElementsByClassName dom "info" with
  | [] => Return None
  | info :: _ =>
      let data :=
        fold_left (fun d item => scan_link item d)
                  (getElementsByTagName info "a") empty_info in
      match getElementsByClassName dom "movie" with
      | [] => Throw TypeError
      | movie :: _ =>
          bind (for_each scan_img (getElementsByTagName movie "img") data)
            (fun data =>
               bind (for_each scan_p (getElementsByTagName info "p") data)
                 (fun data => Return (Some data)))
      end
  end.

(* ================================================================== *)
(** ** The store ([database]) and the other collaborators *)

(** The three entity kinds; [attachMeta] names them ['tag'], ['star'] and
    ['series'], [getMetaId] by their table. *)
Inductive kind := Tag | Star | Series.

Definition kind_eqb (a b : kind) : bool :=
  match a, b with
  | Tag, Tag | Star, Star | Series, Series => true
  | _, _ => false
  end.

Record type_mapping := { log : string; column : string; type : string }.

Definition _getTypeMapping (k : kind) : type_mapping :=
  match k with
  | Tag => {| log := "Tag"; column := "tagId"; type := "tags" |}
  | Star => {| log := "Star"; column := "starId"; type := "stars" |}
  | Series => {| log := "Series"; column := "seriesId"; type := "series" |}
  end.

(** A row of [metadatas]. *)
Record metadata_row := {
  m_id : nat;
  m_title : string;
  m_companyName : string;
  m_companyId : string;
  m_posterFileURL : string;
  m_releaseDate : string;
  m_updateTime : nat
}.

(** A row of [tags], [stars] or [series]; [photoURL] is set on stars only. *)
Record entity_row := {
  e_id : nat;
  e_name : string;
  e_photoURL : option string;
  e_updateTime : nat
}.

(** A row of [tags_mapping], [stars_mapping] or [series_mapping];
    [j_entityId] is the column [tagId], [starId] or [seriesId]. *)
Record mapping_row := {
  j_id : nat;
  j_metadataId : nat;
  j_entityId : nat;
  j_updateTime : nat
}.

Inductive table := Metadatas | Entities (k : kind) | Mappings (k : kind).

Definition table_eqb (a b : table) : bool :=
  match a, b with
  | Metadatas, Metadatas => true
  | Entities k, Entities k' => kind_eqb k k'
  | Mappings k, Mappings k' => kind_eqb k k'
  | _, _ => false
  end.

(** Modelled from the spec: the collaborators the module imports and does
    not define, the store ([./database]), the cache ([./cache]), the proxy
    prefix ([./file]), the ignore register ([./ignore]) and the network.
    The tables hold every row inserted so far, in insertion order; [open_trx]
    lists the transactions that have begun and neither committed nor rolled
    back, each with the rows it inserted (what a rollback would delete).  A
    query sees all rows of its table, those of open transactions included.
    [fuse = Some n] makes the query after the next [n] fail, once; with
    [fuse = None] the store answers every query.  [network] is the script of
    the answers to the coming requests, [clock] what [new Date().getTime()]
    reads. *)
Record World := {
  metadatas : list metadata_row;
  entities : kind -> list entity_row;
  mappings : kind -> list mapping_row;
  open_trx : list (nat * list (table * nat));
  trx_seq : nat;
  fuse : option nat;
  cache_entries : list (kind * nat * entity_row);
  ignored : list string;
  network : list (option document);
  requests : nat;
  proxyPrefix : string;
  clock : nat
}.

Definition with_metadatas (v : list metadata_row) (w : World) : World :=
  {| metadatas := v; entities := entities w; mappings := mappings w;
     open_trx := open_trx w; trx_seq := trx_seq w; fuse := fuse w;
     cache_entries := cache_entries w; ignored := ignored w;
     network := network w; requests := requests w;
     proxyPrefix := proxyPrefix w; clock := clock w |}.

Definition with_entities (k : kind) (v : list entity_row) (w : World) : World :=
  {| metadatas := metadatas w;
     entities := fun k' => if kind_eqb k k' then v else entities w k';
     mappings := mappings w;
     open_trx := open_trx w; trx_seq := trx_seq w; fuse := fuse w;
     cache_entries := cache_entries w; ignored := ignored w;
     network := network w; requests := requests w;
     proxyPrefix := proxyPrefix w; clock := clock w |}.

Definition with_mappings (k : kind) (v : list mapping_row) (w : World) : World :=
  {| metadatas := metadatas w; entities := entities w;
     mappings := fun k' => if kind_eqb k k' then v else mappings w k';
     open_trx := open_trx w; trx_seq := trx_seq w; fuse := fuse w;
     cache_entries := cache_entries w; ignored := ignored w;
     network := network w; requests := requests w;
     proxyPrefix := proxyPrefix w; clock := clock w |}.

Definition with_trx (o : list (nat * list (table * nat))) (n : nat) (w : World) : World :=
  {| metadatas := metadatas w; entities := entities w; mappings := mappings w;
     open_trx := o; trx_seq := n; fuse := fuse w;
     cache_entries := cache_entries w; ignored := ignored w;
     network := network w; requests := requests w;
     proxyPrefix := proxyPrefix w; clock := clock w |}.

Definition with_fuse (f : option nat) (w : World) : World :=
  {| metadatas := metadatas w; entities := entities w; mappings := mappings w;
     open_trx := open_trx w; trx_seq := trx_seq w; fuse := f;
     cache_entries := cache_entries w; ignored := ignored w;
     network := network w; requests := requests w;
     proxyPrefix := proxyPrefix w; clock := clock w |}.

Definition with_cache (c : list (kind * nat * entity_row)) (w : World) : World :=
  {| metadatas := metadatas w; entities := entities w; mappings := mappings w;
     open_trx := open_trx w; trx_seq := trx_seq w; fuse := fuse w;
     cache_entries := c; ignored := ignored w;
     network := network w; requests := requests w;
     proxyPrefix := proxyPrefix w; clock := clock w |}.

Definition with_ignored (i : list string) (w : World) : World :=
  {| metadatas := metadatas w; entities := entities w; mappings := mappings w;
     open_trx := open_trx w; trx_seq := trx_seq w; fuse := fuse w;
     cache_entries := cache_entries w; ignored := i;
     network := network w; requests := requests w;
     proxyPrefix := proxyPrefix w; clock := clock w |}.

Definition with_network (n : list (option document)) (r : nat) (w : World) : World :=
  {| metadatas := metadatas w; entities := entities w; mappings := mappings w;
     open_trx := open_trx w; trx_seq := trx_seq w; fuse := fuse w;
     cache_entries := cache_entries w; ignored := ignored w;
     network := n; requests := r;
     proxyPrefix := proxyPrefix w; clock := clock w |}.

(* ------------------------------------------------------------------ *)
(** *** Asynchronous computations *)

(** The state of the promise an [async] function returns, once nothing more
    can happen to it. *)
Inductive promise (A : Type) :=
| Fulfilled (a : A)
| Rejected (e : error)
| Pending.
Arguments Fulfilled {A} a.
Arguments Rejected {A} e.
Arguments Pending {A}.

Definition async (A : Type) : Type := World -> promise A * World.

Definition ret {A} (a : A) : async A := fun w => (Fulfilled a, w).
Definition throw {A} (e : error) : async A := fun w => (Rejected e, w).

(** [await m] followed by [k]: a rejection is thrown on, a promise that
    never settles never resumes the caller. *)
Definition await {A B} (m : async A) (k : A -> async B) : async B :=
  fun w =>
    match m w with
    | (Fulfilled a, w') => k a w'
    | (Rejected e, w') => (Rejected e, w')
    | (Pending, w') => (Pending, w')
    end.

Notation "x <- m ;; k" := (await m (fun x => k))
  (at level 61, m at next level, right associativity).
Notation "m ;;; k" := (await m (fun _ => k))
  (at level 61, right associativity).

(** [try { m } catch (error) { h error }]. *)
Definition try_catch {A} (m : async A) (h : error -> async A) : async A :=
  fun w =>
    match m w with
    | (Rejected e, w') => h e w'
    | r => r
    end.

(** [new Promise(async (resolve) => { body })] where [body] calls [resolve]
    with its result as its last action: the promise is fulfilled by that
    call; when [body] throws instead, nothing ever settles the promise. *)
Definition new_Promise {A} (body : async A) : async A :=
  fun w =>
    match body w with
    | (Fulfilled a, w') => (Fulfilled a, w')
    | (_, w') => (Pending, w')
    end.

(** A [for] loop over [l] awaiting [body] on each element and pushing the
    results. *)
Fixpoint for_await {A B} (body : A -> async B) (l : list A) : async (list B) :=
  match l with
  | [] => ret []
  | x :: r => y <- body x ;; ys <- for_await body r ;; ret (y :: ys)
  end.

(* ------------------------------------------------------------------ *)
(** *** Queries and transactions *)

(** Every query passes here: the fuse decides whether the store fails. *)
Definition query {A} (run : async A) : async A :=
  fun w =>
    match fuse w with
    | None => run w
    | Some 0 => (Rejected StoreError, with_fuse None w)
    | Some (S n) => run (with_fuse (Some n) w)
    end.

(** [db(t).where(p).first()], [.select('*')] and [.count()]. *)
Definition db_first {R} (rows : World -> list R) (p : R -> bool) : async (option R) :=
  query (fun w => (Fulfilled (find p (rows w)), w)).

Definition db_select {R} (rows : World -> list R) (p : R -> bool) : async (list R) :=
  query (fun w => (Fulfilled (filter p (rows w)), w)).

Definition db_count {R} (rows : World -> list R) (p : R -> bool) : async nat :=
  query (fun w => (Fulfilled (length (filter p (rows w))), w)).

(** The id an insert generates: above every id of the table. *)
Definition next_id (ids : list nat) : nat := S (list_max ids).

Definition is_open (t : nat) (w : World) : bool :=
  existsb (fun e => Nat.eqb (fst e) t) (open_trx w).

Definition log_write (t : nat) (wr : table * nat) (w : World) : World :=
  with_trx
    (map (fun e => if Nat.eqb (fst e) t then (fst e, snd e ++ [wr]) else e)
         (open_trx w))
    (trx_seq w) w.

(** [db(t).insert(data).transacting(trx).select('id')]: the row is appended
    and charged to [trx]; a transaction that has ended refuses the query. *)
Definition insert_metadata (data : nat -> metadata_row) (trx : nat) : async nat :=
  query (fun w =>
    if is_open trx w then
      let id := next_id (map m_id (metadatas w)) in
      (Fulfilled id,
       log_write trx (Metadatas, id) (with_metadatas (metadatas w ++ [data id]) w))
    else (Rejected StoreError, w)).

Definition insert_entity (k : kind) (data : nat -> entity_row) (trx : nat) : async nat :=
  query (fun w =>
    if is_open trx w then
      let id := next_id (map e_id (entities w k)) in
      (Fulfilled id,
       log_write trx (Entities k, id) (with_entities k (entities w k ++ [data id]) w))
    else (Rejected StoreError, w)).

Definition insert_mapping (k : kind) (data : nat -> mapping_row) (trx : nat) : async nat :=
  query (fun w =>
    if is_open trx w then
      let id := next_id (map j_id (mappings w k)) in
      (Fulfilled id,
       log_write trx (Mappings k, id) (with_mappings k (mappings w k ++ [data id]) w))
    else (Rejected StoreError, w)).

Definition begin_trx (w : World) : nat * World :=
  (trx_seq w, with_trx (open_trx w ++ [(trx_seq w, [])]) (S (trx_seq w)) w).

Definition close_trx (t : nat) (w : World) : World :=
  with_trx (filter (fun e => negb (Nat.eqb (fst e) t)) (open_trx w)) (trx_seq w) w.

Definition commit (t : nat) (w : World) : World := close_trx t w.

Definition delete_row (wr : table * nat) (w : World) : World :=
  let id := snd wr in
  match fst wr with
  | Metadatas =>
      with_metadatas (filter (fun r => negb (Nat.eqb (m_id r) id)) (metadatas w)) w
  | Entities k =>
      with_entities k (filter (fun r => negb (Nat.eqb (e_id r) id)) (entities w k)) w
  | Mappings k =>
      with_mappings k (filter (fun r => negb (Nat.eqb (j_id r) id)) (mappings w k)) w
  end.

Definition writes_of (t : nat) (w : World) : list (table * nat) :=
  flat_map (fun e => if Nat.eqb (fst e) t then snd e else []) (open_trx w).

Definition rollback (t : nat) (w : World) : World :=
  close_trx t (fold_left (fun w' wr => delete_row wr w') (writes_of t w) w).

(** A row is committed when no open transaction has it among its writes. *)
Definition committed (tbl : table) (id : nat) (w : World) : bool :=
  negb (existsb
          (fun e => existsb (fun wr => table_eqb (fst wr) tbl && Nat.eqb (snd wr) id)
                            (snd e))
          (open_trx w)).

(** [db.transaction(async trx => handler)]: a transaction of its own; it
    commits when the handler returns, rolls back and rejects when the handler
    throws, and stays open while the handler does neither. *)
Definition db_transaction {A} (handler : nat -> async A) : async A :=
  fun w =>
    let (t, w1) := begin_trx w in
    match handler t w1 with
    | (Fulfilled a, w2) => (Fulfilled a, commit t w2)
    | (Rejected e, w2) => (Rejected e, rollback t w2)
    | (Pending, w2) => (Pending, w2)
    end.

(* ------------------------------------------------------------------ *)
(** *** Cache, ignore register, network *)

Definition cache_key_eqb (k : kind) (id : nat) (e : kind * nat * entity_row) : bool :=
  kind_eqb (fst (fst e)) k && Nat.eqb (snd (fst e)) id.

Definition cache_find (k : kind) (id : nat) (w : World) : option entity_row :=
  option_map snd (find (cache_key_eqb k id) (cache_entries w)).

(** Modelled from the spec: the cache collaborator ([./cache]) is not in the
    module.  [cache(key, producer)] returns the value stored under the key;
    on a miss it runs the producer, stores what it found and returns it.  The
    key [getMeta_<type>_<id>] is the pair of the kind and the id. *)
Definition cache (k : kind) (id : nat) (producer : async (option entity_row))
  : async (option entity_row) :=
  fun w =>
    match cache_find k id w with
    | Some r => (Fulfilled (Some r), w)
    | None =>
        match producer w with
        | (Fulfilled (Some r), w') =>
            (Fulfilled (Some r), with_cache (cache_entries w' ++ [(k, id, r)]) w')
        | other => other
        end
    end.

(** An assignment to a field of the object the cache handed out: the cached
    object is that same object. *)
Definition cache_assign (k : kind) (id : nat) (r : entity_row) : async unit :=
  fun w =>
    (Fulfilled tt,
     with_cache
       (map (fun e => if cache_key_eqb k id e then (k, id, r) else e) (cache_entries w))
       w).

(** Modelled from the spec: [ignore.addIgnore(key)] marks the key in the
    ignore register. *)
Definition addIgnore (JAVID : string) : async unit :=
  fun w => (Fulfilled tt, with_ignored (ignored w ++ [JAVID]) w).

(** One [fetch(url).then(res => res.text())], parsed: the next entry of the
    network script; [None] is a transport failure, and so is every request
    once the script is used up. *)
Definition http_get (w : World) : option document * World :=
  match network w with
  | [] => (None, with_network [] (S (requests w)) w)
  | r :: rest => (r, with_network rest (S (requests w)) w)
  end.

(** [pRetry(attempt, {retries})]: one attempt, then up to [retries] more. *)
Fixpoint pRetry {A} (retries : nat) (attempt : World -> option A * World) : async A :=
  fun w =>
    match attempt w with
    | (Some a, w') => (Fulfilled a, w')
    | (None, w') =>
        match retries with
        | 0 => (Rejected TransportError, w')
        | S n => pRetry n attempt w'
        end
    end.

Definition of_completion {A} (c : completion A) : async A :=
  match c with
  | Return a => ret a
  | Throw e => throw e
  end.

(* ================================================================== *)
(** ** The [Metadata] class *)

(** Lines 175-274. *)
Definition fetchNew (JAVID : string) : async (option JAVinfo) :=
  result <- pRetry 5 http_get ;;
  of_completion (extractFields result).

(** [if (photoURL)]: neither [null] nor the empty string. *)
Definition photo_truthy (p : option string) : bool :=
  match p with Some s => truthy s | None => false end.

(** The row [getMetaId] inserts (lines 329-334). *)
Definition new_entity (name : string) (photoURL : option string) (w : World)
  (id : nat) : entity_row :=
  {| e_id := id;
     e_name := name;
     e_photoURL :=
       match photoURL with
       | Some p => if truthy p then Some (proxyPrefix w ++ p)%string else None
       | None => None
       end;
     e_updateTime := clock w |}.

Definition getMetaId_lookup (k : kind) (name : string) : async (option entity_row) :=
  db_first (fun w => entities w k) (fun r => String.eqb (e_name r) name).

Definition getMetaId_create (k : kind) (name : string) (photoURL : option string)
  (trx : nat) : async nat :=
  fun w => insert_entity k (new_entity name photoURL w) trx w.

(** Lines 320-346. *)
Definition getMetaId (k : kind) (name : string) (photoURL : option string)
  (trx : nat) : async nat :=
  try_catch
    (result <- getMetaId_lookup k name ;;
     match result with
     | Some r => ret (e_id r)
     | None => getMetaId_create k name photoURL trx
     end)
    (fun error => throw error).

Definition new_mapping (metadataId id : nat) (w : World) (j : nat) : mapping_row :=
  {| j_id := j; j_metadataId := metadataId; j_entityId := id;
     j_updateTime := clock w |}.

Definition attachMeta_count (k : kind) (metadataId id : nat) : async nat :=
  db_count (fun w => mappings w k)
           (fun r => Nat.eqb (j_entityId r) id && Nat.eqb (j_metadataId r) metadataId).

Definition attachMeta_insert (k : kind) (metadataId id trx : nat) : async nat :=
  fun w => insert_mapping k (new_mapping metadataId id w) trx w.

(** Lines 417-449.  The transaction of line 427 is a new one: its [trx]
    hides the parameter. *)
Definition attachMeta (k : kind) (metadataId : nat) (name : string)
  (photoURL : option string) (trx : nat) : async nat :=
  new_Promise
    (try_catch
       (id <- getMetaId k name photoURL trx ;;
        count <- attachMeta_count k metadataId id ;;
        db_transaction (fun trx' =>
          if Nat.eqb count 0 then
            attachMeta_insert k metadataId id trx' ;;;
            ret 1
          else ret 1))
       (fun error => throw error)).

(* ------------------------------------------------------------------ *)
(** *** Calls in flight

    [getMetadataId] starts all its [attachMeta] calls before it awaits any of
    them ([Promise.all]); each call runs up to its next query, and the store
    answers the queries in some order.  A call in flight is a program counter
    over the awaits of [getMetaId] and [attachMeta]; one step runs one query
    and the code that follows it up to the next await. *)

Inductive resolve_pc :=
| RLookup                  (* line 322 not yet answered *)
| RCreate                  (* nothing found; line 336 not yet answered *)
| RDone (id : nat)         (* returned [id] *)
| RThrown (e : error).     (* threw *)

Definition resolve_step (k : kind) (name : string) (photoURL : option string)
  (trx : nat) (pc : resolve_pc) (w : World) : resolve_pc * World :=
  match pc with
  | RLookup =>
      match getMetaId_lookup k name w with
      | (Fulfilled (Some r), w') => (RDone (e_id r), w')
      | (Fulfilled None, w') => (RCreate, w')
      | (Rejected e, w') => (RThrown e, w')
      | (Pending, w') => (pc, w')
      end
  | RCreate =>
      match getMetaId_create k name photoURL trx w with
      | (Fulfilled id, w') => (RDone id, w')
      | (Rejected e, w') => (RThrown e, w')
      | (Pending, w') => (pc, w')
      end
  | RDone _ | RThrown _ => (pc, w)
  end.

Inductive attach_pc :=
| AResolve (r : resolve_pc)    (* inside [getMetaId], line 423 *)
| ACount (id : nat)            (* line 426 not yet answered *)
| ABegin (id count : nat)      (* line 427: the transaction not yet begun *)
| AInsert (id trx' : nat)      (* line 437 not yet answered *)
| ACommit (trx' : nat)         (* [resolve(1)] called; the commit is left *)
| ADone                        (* resolved, nothing left to do *)
| AStuck.                      (* threw: the promise never settles *)

Record attach_call := {
  a_kind : kind;
  a_metadataId : nat;
  a_name : string;
  a_photoURL : option string;
  a_trx : nat;
  a_pc : attach_pc
}.

Definition at_pc (c : attach_call) (pc : attach_pc) : attach_call :=
  {| a_kind := a_kind c; a_metadataId := a_metadataId c; a_name := a_name c;
     a_photoURL := a_photoURL c; a_trx := a_trx c; a_pc := pc |}.

Definition attach_start (k : kind) (metadataId : nat) (name : string)
  (photoURL : option string) (trx : nat) : attach_call :=
  {| a_kind := k; a_metadataId := metadataId; a_name := name;
     a_photoURL := photoURL; a_trx := trx; a_pc := AResolve RLookup |}.

Definition attach_step (c : attach_call) (w : World) : attach_call * World :=
  match a_pc c with
  | AResolve r =>
      match resolve_step (a_kind c) (a_name c) (a_photoURL c) (a_trx c) r w with
      | (RDone id, w') => (at_pc c (ACount id), w')
      | (RThrown _, w') => (at_pc c AStuck, w')
      | (r', w') => (at_pc c (AResolve r'), w')
      end
  | ACount id =>
      match attachMeta_count (a_kind c) (a_metadataId c) id w with
      | (Fulfilled count, w') => (at_pc c (ABegin id count), w')
      | (_, w') => (at_pc c AStuck, w')
      end
  | ABegin id count =>
      let (t, w') := begin_trx w in
      if Nat.eqb count 0 then (at_pc c (AInsert id t), w')
      else (at_pc c (ACommit t), w')
  | AInsert id t =>
      match attachMeta_insert (a_kind c) (a_metadataId c) id t w with
      | (Fulfilled _, w') => (at_pc c (ACommit t), w')
      | (_, w') => (at_pc c AStuck, rollback t w')
      end
  | ACommit t => (at_pc c ADone, commit t w)
  | ADone | AStuck => (c, w)
  end.

(** [resolve(1)] has been called. *)
Definition attach_resolved (c : attach_call) : bool :=
  match a_pc c with
  | ACommit _ | ADone => true
  | _ => false
  end.

Fixpoint step_nth (i : nat) (cs : list attach_call) (w : World)
  : list attach_call * World :=
  match cs with
  | [] => ([], w)
  | c :: r =>
      match i with
      | 0 => let (c', w') := attach_step c w in (c' :: r, w')
      | S j => let (r', w') := step_nth j r w in (c :: r', w')
      end
  end.

(** The calls advance in the order the schedule names them. *)
Fixpoint run_sched (sched : list nat) (cs : list attach_call) (w : World)
  : list attach_call * World :=
  match sched with
  | [] => (cs, w)
  | i :: s => let (cs', w') := step_nth i cs w in run_sched s cs' w'
  end.

(** A call has at most six awaits: six steps of each call, one call after
    the other, bring every call to its end. *)
Definition to_the_end (n : nat) : list nat :=
  flat_map (fun i => repeat i 6) (seq 0 n).

(** [await Promise.all(promises)]: the calls run as [sched] orders them, and
    what is then left of each runs to its end; the caller resumes when every
    promise is fulfilled, and never when one of them never settles. *)
Definition Promise_all (sched : list nat) (cs : list attach_call) : async unit :=
  fun w =>
    let (cs', w') := run_sched (sched ++ to_the_end (length cs)) cs w in
    if forallb attach_resolved cs' then (Fulfilled tt, w') else (Pending, w').

(** Two calls of [getMetaId] with the same arguments in flight together:
    [sched] names, step by step, the call whose query is answered next
    ([false] the first call, [true] the second); what is left of the first
    call and then of the second runs after it. *)
Section Resolve2.

Variables (k : kind) (name : string) (photoURL : option string) (trx : nat).




End Resolve2.

(* ------------------------------------------------------------------ *)
(** *** The creation path *)

Definition new_metadata (d : JAVinfo) (companyName companyId : string) (w : World)
  (id : nat) : metadata_row :=
  {| m_id := id;
     m_title := title d;
     m_companyName := companyName;
     m_companyId := companyId;
     m_posterFileURL := cover d;
     m_releaseDate := releaseDate d;
     m_updateTime := clock w |}.

(** Lines 141-153: the calls, in the order they are pushed. *)
Definition promises (d : JAVinfo) (metadataId trx : nat) : list attach_call :=
  (if truthy (series d)
   then [attach_start Series metadataId (series d) None trx] else [])
  ++ map (fun item => attach_start Star metadataId (star_name item)
                                   (Some (star_img item)) trx) (stars d)
  ++ map (fun item => attach_start Tag metadataId item None trx) (tags d).

(** Line 116. *)
Definition find_by_key (companyName companyId : string) : async (option metadata_row) :=
  db_first metadatas
           (fun r => String.eqb (m_companyName r) companyName
                     && String.eqb (m_companyId r) companyId).

(** Lines 124-159: the handler of the creating transaction, from the
    extracted fields on.  [sched] is the order in which the attach calls
    advance. *)
Definition create_with (JAVID companyName companyId : string) (sched : list nat)
  (trx : nat) (JAVinfo : option JAVinfo) : async nat :=
  match JAVinfo with
  | None => addIgnore JAVID ;;; ret 0
  | Some d =>
      if Nat.eqb (length (tags d)) 0 || Nat.eqb (length (stars d)) 0
      then addIgnore JAVID ;;; ret 0
      else
        metadataId <-
          (fun w => insert_metadata (new_metadata d companyName companyId w) trx w) ;;
        Promise_all sched (promises d metadataId trx) ;;;
        ret metadataId
  end.

(** Lines 121-159. *)
Definition create_handler (JAVID companyName companyId : string) (sched : list nat)
  (trx : nat) : async nat :=
  JAVinfo <- fetchNew JAVID ;;
  create_with JAVID companyName companyId sched trx JAVinfo.

(** Lines 111-166.  A key without a second piece makes
    [JAVID.split('-')[1]] undefined, a value the query builder refuses in a
    [where].  The [catch] of line 162 logs the error and settles nothing. *)
Definition getMetadataId (JAVID : string) (sched : list nat) : async nat :=
  new_Promise
    (try_catch
       (match split "-"%char JAVID with
        | companyName :: companyId :: _ =>
            metadataId <- find_by_key companyName companyId ;;
            if match metadataId with
               | Some r => negb (Nat.eqb (m_id r) 0)
               | None => false
               end
            then ret (match metadataId with Some r => m_id r | None => 0 end)
            else db_transaction (create_handler JAVID companyName companyId sched)
        | _ => throw StoreError
        end)
       (fun error w => (Pending, w))).

(* ------------------------------------------------------------------ *)
(** *** The read path *)

(** Lines 393-404. *)
Definition getMetaInfoByMetaId (k : kind) (id : nat) : async (option entity_row) :=
  result <- cache k id (db_first (fun w => entities w k)
                                (fun r => Nat.eqb (e_id r) id)) ;;
  match result with
  | None => ret None
  | Some r =>
      if photo_truthy (e_photoURL r) then
        fun w =>
          let r' := {| e_id := e_id r; e_name := e_name r;
                       e_photoURL :=
                         option_map (fun p => (proxyPrefix w ++ p)%string) (e_photoURL r);
                       e_updateTime := e_updateTime r |} in
          (cache_assign k id r' ;;; ret (Some r')) w
      else ret (Some r)
  end.

Record metas := {
  metas_tags : list (option entity_row);
  metas_stars : list (option entity_row);
  metas_series : option entity_row
}.

(** Lines 355-383.  The tags are read by [tagId], the stars by [starId], the
    series by the [id] of the mapping row. *)
Definition getMetaByMetadataId (id : nat) : async metas :=
  result <- db_select (fun w => mappings w Tag) (fun r => Nat.eqb (j_metadataId r) id) ;;
  tags <- for_await (fun r => getMetaInfoByMetaId Tag (j_entityId r)) result ;;
  result <- db_select (fun w => mappings w Star) (fun r => Nat.eqb (j_metadataId r) id) ;;
  stars <- for_await (fun r => getMetaInfoByMetaId Star (j_entityId r)) result ;;
  result <- db_first (fun w => mappings w Series) (fun r => Nat.eqb (j_metadataId r) id) ;;
  series <- match result with
            | Some r => getMetaInfoByMetaId Series (j_id r)
            | None => ret None
            end ;;
  ret {| metas_tags := tags; metas_stars := stars; metas_series := series |}.

(** What [getMetadataById] returns: the base row with its poster path
    rewritten, the display code and the associations. *)
Record metadata_info := {
  i_row : metadata_row;
  i_JAVID : string;
  i_metas : metas
}.

(** Lines 18-29; [None] is [null]. *)
Definition getMetadataById (id : nat) : async (option metadata_info) :=
  result <- db_first metadatas (fun r => Nat.eqb (m_id r) id) ;;
  match result with
  | None => ret None
  | Some r =>
      fun w =>
        let row := {| m_id := m_id r; m_title := m_title r;
                      m_companyName := m_companyName r;
                      m_companyId := m_companyId r;
                      m_posterFileURL := (proxyPrefix w ++ m_posterFileURL r)%string;
                      m_releaseDate := m_releaseDate r;
                      m_updateTime := m_updateTime r |} in
        (m <- getMetaByMetadataId id ;;
         ret (Some {| i_row := row;
                      i_JAVID := (m_companyName r ++ "-" ++ m_companyId r)%string;
                      i_metas := m |})) w
  end.

(* ------------------------------------------------------------------ *)
(** *** The list functions *)

(** [.orderBy(column, 'desc')]: the rows, largest first; [lt] compares the
    column of two rows.  Rows that compare equal keep the order of the table
    (the store may order them otherwise; nothing below depends on it). *)
Fixpoint insert_desc {R} (lt : R -> R -> bool) (x : R) (l : list R) : list R :=
  match l with
  | [] => [x]
  | y :: r => if lt x y then y :: insert_desc lt x r else x :: l
  end.

Definition orderBy_desc {R} (lt : R -> R -> bool) (l : list R) : list R :=
  fold_right (insert_desc lt) [] l.

(** [.paginate({perPage, currentPage})]: [perPage] rows from the offset
    [(currentPage - 1) * perPage]; a page below 1 is page 1. *)
Definition paginate {R} (perPage currentPage : nat) (l : list R) : list R :=
  firstn perPage (skipn ((currentPage - 1) * perPage) l).

(** [db(t).where(p).orderBy(..).select(..).paginate(..)], then [.data]. *)
Definition db_page {R} (rows : World -> list R) (p : R -> bool)
  (order : list R -> list R) (perPage currentPage : nat) : async (list R) :=
  query (fun w => (Fulfilled (paginate perPage currentPage (order (filter p (rows w)))), w)).

Record listing (A : Type) := { total : nat; data : list A }.
Arguments total {A} l.
Arguments data {A} l.

(** Lines 24-28 and 54-57: a base row made into what the readers return. *)
Definition assemble (item : metadata_row) : async metadata_info :=
  fun w =>
    let row := {| m_id := m_id item; m_title := m_title item;
                  m_companyName := m_companyName item;
                  m_companyId := m_companyId item;
                  m_posterFileURL := (proxyPrefix w ++ m_posterFileURL item)%string;
                  m_releaseDate := m_releaseDate item;
                  m_updateTime := m_updateTime item |} in
    (m <- getMetaByMetadataId (m_id item) ;;
     ret {| i_row := row;
            i_JAVID := (m_companyName item ++ "-" ++ m_companyId item)%string;
            i_metas := m |}) w.


Record listing_by_meta := {
  l_total : nat;
  l_data : list (option metadata_info);
  l_metaInfo : option entity_row
}.

(** Lines 76-102; the kind stands for the [type] argument ['tag'], ['star']
    or ['series'], as in [attachMeta]. *)
Definition getMetadataListByMetaId (k : kind) (metaId page size : nat)
  : async listing_by_meta :=
  result <- db_page (fun w => mappings w k) (fun r => Nat.eqb (j_entityId r) metaId)
              (orderBy_desc (fun a b => Nat.ltb (j_id a) (j_id b)))
              size page ;;
  total <- db_count (fun w => mappings w k) (fun r => Nat.eqb (j_entityId r) metaId) ;;
  processed <- for_await (fun r => getMetadataById (j_metadataId r)) result ;;
  metaInfo <- getMetaInfoByMetaId k metaId ;;
  ret {| l_total := total; l_data := processed; l_metaInfo := metaInfo |}.

(** [file.getProxyPrefix() + item.photoURL] where the column may be
    [null]: the concatenation writes [null] out. *)
Definition prefix_photo (w : World) (item : entity_row) : entity_row :=
  {| e_id := e_id item; e_name := e_name item;
     e_photoURL :=
       Some (proxyPrefix w
             ++ match e_photoURL item with Some p => p | None => "null" end)%string;
     e_updateTime := e_updateTime item |}.

(** Lines 285-308; the kind stands for the [type] argument ['tags'],
    ['stars'] or ['series'], the name of the table. *)
Definition getMetaList (k : kind) (page size : nat) : async (listing entity_row) :=
  result <- db_page (fun w => entities w k) (fun _ => true) (fun l => l) size page ;;
  total <- db_count (fun w => entities w k) (fun _ => true) ;;
  fun w =>
    ret {| total := total;
           data := map (fun item =>
                          match k with
                          | Star => prefix_photo w item
                          | _ => item
                          end) result |} w.

(* ================================================================== *)
(** ** Sample pages and worlds *)

Module Sample.

Definition attr (n v : string) : attribute := {| name := n; value := v |}.

Definition link (href text : string) : node :=
  Element "a" [attr "href" href] [TextNode text].

Definition img (src alt : string) : node :=
  Element "img" [attr "src" src; attr "title" alt] [].

Definition date_p (d : string) : node :=
  Element "p" [] [Element "span" [attr "class" "header"] [TextNode "発売日:"];
                  TextNode d].

Definition info_block (links : list node) : node :=
  Element "div" [attr "class" "col-md-3 info"]
          (date_p " 2020-01-01" :: map (fun l => Element "p" [] [l]) links).

(** A page as the source site lays it out: a media block holding the
    images and the info block. *)
Definition page (imgs links : list node) : document :=
  [Element "div" [attr "class" "container"]
     [Element "div" [attr "class" "row movie"] (imgs ++ [info_block links])]].

(** A page with an info block and no media block. *)
Definition page_without_movie : document :=
  [Element "div" [attr "class" "container"]
     [info_block [link "/ja/genre/1" "Drama"]]].

(** A page whose media block holds two cover images. *)
Definition page_two_covers : document :=
  page [img "/cover/a.jpg" "First"; img "/cover/b.jpg" "Second"]
       [link "/ja/genre/1" "Drama"].

Definition page_ABC_001 : document :=
  page [img "/cover/x.jpg" "T"; img "/actress/j.jpg" "Jane"]
       [link "/ja/series/1" "S1"; link "/ja/genre/1" "Drama"; link "/ja/genre/2" "HD"].

Definition page_ABC_002 : document :=
  page [img "/cover/y.jpg" "U"; img "/actress/k.jpg" "Kate"]
       [link "/ja/series/1" "S1"; link "/ja/genre/3" "Action"].

(** One star, one tag, no series. *)
Definition page_star_tag : document :=
  page [img "/cover/x.jpg" "T"; img "/actress/j.jpg" "Jane"]
       [link "/ja/genre/1" "Drama"].

(** Tags and no star. *)
Definition page_no_star : document :=
  page [img "/cover/x.jpg" "T"] [link "/ja/genre/1" "Drama"].

(** An empty store that never fails, with the given network script. *)
Definition fresh (net : list (option document)) : World :=
  {| metadatas := []; entities := fun _ => []; mappings := fun _ => [];
     open_trx := []; trx_seq := 0; fuse := None;
     cache_entries := []; ignored := [];
     network := net; requests := 0;
     proxyPrefix := "/proxy"; clock := 7 |}.


End Sample.

(* ================================================================== *)
(** ** Vocabulary of the statements *)

(** The images of the media block that reach the cover branch of line 253:
    a first attribute that carries the cover marker and not the star marker. *)
Definition is_cover_img (item : node) : bool :=
  match nth_error (attributes_of item) 0 with
  | Some a0 => negb (star_marker (value a0)) && cover_marker (value a0)
  | None => false
  end.

Definition cover_images (dom : document) : list node :=
  match getElementsByClassName dom "movie" with
  | [] => []
  | movie :: _ => filter is_cover_img (getElementsByTagName movie "img")
  end.

Definition last_error {A} (l : list A) : option A := hd_error (rev l).

(** The value of the [i]-th attribute of an element. *)
Definition attr_value (i : nat) (item : node) : option string :=
  option_map value (nth_error (attributes_of item) i).


Definition junctions (k : kind) (metadataId id : nat) (w : World) : list mapping_row :=
  filter (fun r => Nat.eqb (j_entityId r) id && Nat.eqb (j_metadataId r) metadataId)
         (mappings w k).


(** Lines 426-443, what [attachMeta] does once it has the entity id. *)
Definition attach_link (k : kind) (metadataId id : nat) : async nat :=
  count <- attachMeta_count k metadataId id ;;
  db_transaction (fun trx' =>
    if Nat.eqb count 0 then
      attachMeta_insert k metadataId id trx' ;;;
      ret 1
    else ret 1).



(** The first answer among the entries of a network script. *)
Fixpoint first_some {A} (l : list (option A)) : option A :=
  match l with
  | [] => None
  | Some a :: _ => Some a
  | None :: r => first_some r
  end.

(** What the six attempts of [fetchNew] can reach of the script. *)
Definition fetched (w : World) : option document := first_some (firstn 6 (network w)).

(** A key never seen: the lookup of line 116 finds no row. *)
Definition unseen (companyName companyId : string) (w : World) : Prop :=
  find (fun r => String.eqb (m_companyName r) companyName
                 && String.eqb (m_companyId r) companyId) (metadatas w) = None.

(** [!JAVinfo || !JAVinfo.tags.length || !JAVinfo.stars.length]. *)
Definition unusable (JAVinfo : option JAVinfo) : bool :=
  match JAVinfo with
  | None => true
  | Some d => Nat.eqb (length (tags d)) 0 || Nat.eqb (length (stars d)) 0
  end.

(** What the attach calls leave alone on a healthy store: the fuse, the
    base rows and the ignore register. *)
Definition keeps (w w' : World) : Prop :=
  fuse w' = None /\ metadatas w' = metadatas w /\ ignored w' = ignored w.

(** The transactions a call holds open. *)
Definition held (c : attach_call) : list nat :=
  match a_pc c with
  | AInsert _ t | ACommit t => [t]
  | _ => []
  end.

(** A call of the creation whose transaction is [T]: it has not thrown, and
    its own transaction is open while it still has to insert. *)
Definition call_ok (T : nat) (w : World) (c : attach_call) : Prop :=
  a_trx c = T /\
  match a_pc c with
  | AInsert _ t => is_open t w = true
  | AResolve (RDone _) | AResolve (RThrown _) | AStuck => False
  | _ => True
  end.

(** The awaits a call still has before it. *)
Definition rank (c : attach_call) : nat :=
  match a_pc c with
  | AResolve RLookup => 6
  | AResolve RCreate => 5
  | ACount _ => 4
  | ABegin _ _ => 3
  | AInsert _ _ => 2
  | ACommit _ => 1
  | _ => 0
  end.

(** A healthy store with the creating transaction [T] open; [hs] are the
    transactions the calls hold, all different and younger than [T]. *)
Definition world_ok (T : nat) (w : World) (hs : list nat) : Prop :=
  fuse w = None /\ is_open T w = true /\ T < trx_seq w
  /\ NoDup hs /\ (forall t, In t hs -> t < trx_seq w /\ t <> T).

Definition calls_ok (T : nat) (w : World) (pre : list nat) (cs : list attach_call)
  : Prop :=
  world_ok T w (pre ++ flat_map held cs) /\ Forall (call_ok T w) cs.

(** The images of the media block and the links and paragraphs of the info
    block, as [fetchNew] walks them (lines 221, 243, 261). *)
Definition media_images (dom : document) : list node :=
  match getElementsByClassName dom "movie" with
  | [] => []
  | movie :: _ => getElementsByTagName movie "img"
  end.



(** An image whose second attribute is read has one. *)
Definition img_complete (item : node) : bool :=
  match nth_error (attributes_of item) 0 with
  | Some a0 =>
      if star_marker (value a0) || cover_marker (value a0)
      then match nth_error (attributes_of item) 1 with Some _ => true | None => false end
      else true
  | None => true
  end.

(** The documents on which the extraction does not throw. *)
Definition extract_safe (dom : document) : bool :=
  match getElementsByClassName dom "info" with
  | [] => true
  | _ :: _ =>
      match getElementsByClassName dom "movie" with
      | [] => false
      | _ :: _ => forallb img_complete (media_images dom)
      end
  end.









(** Two worlds with the same store, registers and network: they differ at
    most in the cache and the fuse. *)
Definition same_store (w w' : World) : Prop :=
  metadatas w' = metadatas w /\ entities w' = entities w /\ mappings w' = mappings w
  /\ open_trx w' = open_trx w /\ trx_seq w' = trx_seq w /\ ignored w' = ignored w
  /\ network w' = network w /\ requests w' = requests w
  /\ proxyPrefix w' = proxyPrefix w /\ clock w' = clock w.

(** The row of a table with a given id, as [where('id', id).first()] finds it. *)
Definition entity_by_id (k : kind) (id : nat) (w : World) : option entity_row :=
  find (fun r => Nat.eqb (e_id r) id) (entities w k).

Definition metadata_by_id (id : nat) (w : World) : option metadata_row :=
  find (fun r => Nat.eqb (m_id r) id) (metadatas w).

(** The junction rows of a record, in table order. *)
Definition junctions_of (k : kind) (metadataId : nat) (w : World) : list mapping_row :=
  filter (fun r => Nat.eqb (j_metadataId r) metadataId) (mappings w k).

(** The junction rows that point to an entity. *)
Definition junctions_to (k : kind) (metaId : nat) (w : World) : list mapping_row :=
  filter (fun r => Nat.eqb (j_entityId r) metaId) (mappings w k).

(** Every cached entity is an entity of the store: under its key the table
    has a row, with the same id and name. *)
Definition cache_agrees (w : World) : Prop :=
  forall k id r,
    cache_find k id w = Some r ->
    exists r0, entity_by_id k id w = Some r0
               /\ e_id r = e_id r0 /\ e_name r = e_name r0.

(** A computation of the read path, run from a world with the store of [W],
    on a healthy store and a cache that agrees with it: it fulfils with a
    value that satisfies [post], and leaves the store healthy and as it was
    and the cache in agreement. *)
Definition reader_at {A} (W : World) (m : async A) (post : A -> Prop) : Prop :=
  forall w,
    same_store W w -> fuse w = None -> cache_agrees w ->
    exists a w',
      m w = (Fulfilled a, w')
      /\ same_store W w' /\ fuse w' = None /\ cache_agrees w' /\ post a.

(** What the read of an entity gives of the row the store has under the id:
    its id and its name. *)
Definition names_row (res : option entity_row) (row : option entity_row) : Prop :=
  option_map e_id res = option_map e_id row
  /\ option_map e_name res = option_map e_name row.

(** What [getMetaByMetadataId] returns for a record, against the store of
    [W]: one tag for each junction row of the record in [tags_mapping], in
    table order, read under the row's [tagId]; the same for the stars; and
    for the series the entity read under the [id] of the record's first row
    of [series_mapping], [null] when it has none. *)
Definition metas_read (W : World) (id : nat) (m : metas) : Prop :=
  Forall2 (fun j res => names_row res (entity_by_id Tag (j_entityId j) W))
          (junctions_of Tag id W) (metas_tags m)
  /\ Forall2 (fun j res => names_row res (entity_by_id Star (j_entityId j) W))
             (junctions_of Star id W) (metas_stars m)
  /\ match hd_error (junctions_of Series id W) with
     | Some j => names_row (metas_series m) (entity_by_id Series (j_id j) W)
     | None => metas_series m = None
     end.

(** What the readers make of a base row: the display code, the poster path
    behind the proxy prefix, the other columns as stored, and the
    associations. *)
Definition assembled (W : World) (r : metadata_row) (info : metadata_info) : Prop :=
  i_JAVID info = (m_companyName r ++ "-" ++ m_companyId r)%string
  /\ m_posterFileURL (i_row info) = (proxyPrefix W ++ m_posterFileURL r)%string
  /\ m_id (i_row info) = m_id r
  /\ m_title (i_row info) = m_title r
  /\ m_releaseDate (i_row info) = m_releaseDate r
  /\ metas_read W (m_id r) (i_metas info).

(** The store after the record of the first sample page was created. *)
Definition sample_store : World :=
  snd (getMetadataId "ABC-001" [] (Sample.fresh [Some Sample.page_ABC_001])).

(** The rows of the requested page of [getMetadataListByMetaId]: the
    junction rows that point to the entity, by descending row id. *)
Definition page_of_links (k : kind) (metaId page size : nat) (w : World)
  : list mapping_row :=
  paginate size page
    (orderBy_desc (fun a b => Nat.ltb (j_id a) (j_id b)) (junctions_to k metaId w)).


(** What [getMetadataById] gives for the record of a junction row: the
    assembled record, [null] when the base row is missing. *)
Definition record_read (W : World) (j : mapping_row) (res : option metadata_info)
  : Prop :=
  match metadata_by_id (j_metadataId j) W with
  | Some r => exists info, res = Some info /\ assembled W r info
  | None => res = None
  end.

(** What a call of [getMetaId] on the table of [k] can change of the
    store: rows may be added at the end of that table, and nothing else. *)
Definition resolver_frame (k : kind) (w w' : World) : Prop :=
  metadatas w' = metadatas w
  /\ mappings w' = mappings w
  /\ (forall k', k' <> k -> entities w' k' = entities w k')
  /\ (exists l, entities w' k = entities w k ++ l)
  /\ ignored w' = ignored w
  /\ cache_entries w' = cache_entries w
  /\ network w' = network w.

(** What the attach calls leave alone on a healthy store besides the base
    rows: the cache, the proxy prefix and the network. *)
Definition quiet (w w' : World) : Prop :=
  fuse w' = None /\ cache_entries w' = cache_entries w
  /\ proxyPrefix w' = proxyPrefix w /\ network w' = network w
  /\ requests w' = requests w.


(* ================================================================== *)
(** ** Field extraction *)

Lemma for_each_app {A S} (body : A -> S -> completion S) (l1 l2 : list A) (s : S) :
  for_each body (l1 ++ l2) s = bind (for_each body l1 s) (for_each body l2).
Proof.
  revert s; induction l1 as [|x l1 IH]; intros s; simpl; [reflexivity|].
  destruct (body x s) as [s'|e]; simpl; [apply IH | reflexivity].
Qed.

Lemma scan_img_cover (item : node) (data d : JAVinfo) :
  is_cover_img item = true ->
  scan_img item data = Return d ->
  Some (title d) = attr_value 1 item /\ Some (cover d) = attr_value 0 item.
Proof.
  unfold is_cover_img, scan_img, attr_value.
  destruct (nth_error (attributes_of item) 0) as [a0|]; [|discriminate].
  intros H; apply andb_prop in H as [Hs Hc].
  apply negb_true_iff in Hs; rewrite Hs, Hc.
  destruct (nth_error (attributes_of item) 1) as [a1|]; [|discriminate].
  intros [= <-]; simpl; auto.
Qed.

Lemma scan_img_other (item : node) (data d : JAVinfo) :
  is_cover_img item = false ->
  scan_img item data = Return d ->
  title d = title data /\ cover d = cover data.
Proof.
  unfold is_cover_img, scan_img.
  destruct (nth_error (attributes_of item) 0) as [a0|];
    [|intros _ [= <-]; auto].
  destruct (star_marker (value a0)); cbn [negb andb].
  - intros _.
    destruct (nth_error (attributes_of item) 1); [|discriminate].
    intros [= <-]; auto.
  - intros ->; intros [= <-]; auto.
Qed.

(** After the image loop, title and cover are those of the last image that
    reached the cover branch, or unchanged when none did. *)
Lemma scan_imgs_last (imgs : list node) :
  forall data d,
    for_each scan_img imgs data = Return d ->
    match last_error (filter is_cover_img imgs) with
    | Some item =>
        Some (title d) = attr_value 1 item /\ Some (cover d) = attr_value 0 item
    | None => title d = title data /\ cover d = cover data
    end.
Proof.
  induction imgs as [|x l IH] using rev_ind; intros data d.
  - simpl; intros [= <-]; auto.
  - rewrite for_each_app.
    destruct (for_each scan_img l data) as [d1|e] eqn:E1; [|discriminate].
    simpl; destruct (scan_img x d1) as [d2|e] eqn:E2; [|discriminate].
    intros [= <-].
    rewrite filter_app; simpl; unfold last_error.
    destruct (is_cover_img x) eqn:Ex.
    + rewrite rev_app_distr; simpl.
      eapply scan_img_cover; eauto.
    + rewrite app_nil_r.
      destruct (scan_img_other _ _ _ Ex E2) as [-> ->].
      apply (IH _ _ E1).
Qed.

Lemma scan_p_keeps (item : node) (data d : JAVinfo) :
  scan_p item data = Return d ->
  title d = title data /\ cover d = cover data.
Proof.
  unfold scan_p.
  destruct (truthy (releaseDate data)); [intros [= <-]; auto|].
  destruct (firstChild item) as [fc|]; [|intros [= <-]; auto].
  destruct (includes date_marker (textContent fc)); [|intros [= <-]; auto].
  destruct (lastChild item); [|discriminate].
  intros [= <-]; auto.
Qed.

Lemma scan_ps_keep (ps : list node) :
  forall data d,
    for_each scan_p ps data = Return d ->
    title d = title data /\ cover d = cover data.
Proof.
  induction ps as [|x l IH]; intros data d; simpl.
  - intros [= <-]; auto.
  - destruct (scan_p x data) as [d1|e] eqn:E; [|discriminate]; simpl.
    intros H; destruct (IH _ _ H) as [-> ->].
    eapply scan_p_keeps; eauto.
Qed.

(** C4, at a page that has an info block and no media block: the
    extraction throws a [TypeError] (line 243 reads a property of
    [undefined]) instead of leaving title, cover and stars empty. *)
Theorem C4_missing_media_block_throws :
  getElementsByClassName Sample.page_without_movie "info" <> []
  /\ getElementsByClassName Sample.page_without_movie "movie" = []
  /\ extractFields Sample.page_without_movie = Throw TypeError.
Proof. repeat split; [discriminate | reflexivity..]. Qed.

(** C5 as stated fails: on a page with two cover images, title and cover
    are not those of the first one. *)
Lemma C5_first_cover_does_not_win :
  exists d,
    extractFields Sample.page_two_covers = Return (Some d)
    /\ hd_error (cover_images Sample.page_two_covers)
       = Some (Sample.img "/cover/a.jpg" "First")
    /\ title d <> "First" /\ cover d <> "/cover/a.jpg".
Proof.
  eexists; split; [vm_compute; reflexivity|].
  split; [reflexivity|]; split; discriminate.
Qed.

(** C5, amended: when the extraction returns fields, title and cover are
    the second and the first attribute of the LAST image of the media block
    that reaches the cover branch; every later such image overwrites them. *)
Theorem C5_last_cover_wins (dom : document) (d : JAVinfo) (item : node) :
  extractFields dom = Return (Some d) ->
  last_error (cover_images dom) = Some item ->
  Some (title d) = attr_value 1 item /\ Some (cover d) = attr_value 0 item.
Proof.
  unfold extractFields, cover_images.
  destruct (getElementsByClassName dom "info") as [|info ?]; [discriminate|].
  destruct (getElementsByClassName dom "movie") as [|movie ?]; [discriminate|].
  destruct (for_each scan_img _ _) as [d1|e] eqn:E1; [|discriminate]; simpl.
  destruct (for_each scan_p _ d1) as [d2|e] eqn:E2; [|discriminate]; simpl.
  intros [= <-] Hl.
  apply scan_imgs_last in E1; rewrite Hl in E1.
  destruct (scan_ps_keep _ _ _ E2) as [-> ->]; exact E1.
Qed.

Lemma C5_last_cover_wins_witness :
  exists d,
    extractFields Sample.page_two_covers = Return (Some d)
    /\ Some (title d) = Some "Second" /\ Some (cover d) = Some "/cover/b.jpg".
Proof.
  eexists; split; [vm_compute; reflexivity|].
  apply (C5_last_cover_wins Sample.page_two_covers _
           (Sample.img "/cover/b.jpg" "Second")); reflexivity.
Defined.

(* ================================================================== *)
(** ** The store: basic facts *)

Lemma kind_eqb_refl (k : kind) : kind_eqb k k = true.
Proof. destruct k; reflexivity. Qed.

Lemma query_healthy {A} (run : async A) (w : World) :
  fuse w = None -> query run w = run w.
Proof. unfold query; intros ->; reflexivity. Qed.



Lemma find_app_new {A} (p : A -> bool) (l : list A) (x : A) :
  find p l = None -> p x = true -> find p (l ++ [x]) = Some x.
Proof.
  induction l as [|y l IH]; simpl; intros Hn Hx.
  - rewrite Hx; reflexivity.
  - destruct (p y); [discriminate | auto].
Qed.

(* ================================================================== *)
(** ** Read path *)

(** C8: on a store that answers the query, [getMetadataById] of an id
    without a base row fulfils with [null]; it does not reject, and it leaves
    the world as it was. *)
Theorem C8_getMetadataById_absent (id : nat) (w : World) :
  fuse w = None ->
  find (fun r => Nat.eqb (m_id r) id) (metadatas w) = None ->
  getMetadataById id w = (Fulfilled None, w).
Proof.
  intros Hf Hn.
  unfold getMetadataById, await, db_first.
  rewrite query_healthy by exact Hf.
  rewrite Hn; reflexivity.
Qed.

Lemma C8_getMetadataById_absent_witness :
  getMetadataById 5 (Sample.fresh []) = (Fulfilled None, Sample.fresh []).
Proof. apply C8_getMetadataById_absent; reflexivity. Defined.

(* ================================================================== *)
(** ** Entity resolver *)

Section Resolve.

Variables (k : kind) (name : string) (photoURL : option string) (trx : nat).






(** The steps of a call of [getMetaId] are its two awaits. *)
Lemma getMetaId_steps (w : World) :
  let (pc1, w1) := resolve_step k name photoURL trx RLookup w in
  let (pc2, w2) := resolve_step k name photoURL trx pc1 w1 in
  getMetaId k name photoURL trx w
  = (match pc2 with
     | RDone id => Fulfilled id
     | RThrown e => Rejected e
     | _ => Pending
     end, w2).
Proof.
  unfold getMetaId, try_catch, await, throw; cbn [resolve_step].
  destruct (getMetaId_lookup k name w) as [[[r|]|e|] w1] eqn:E1;
    cbn [resolve_step ret].
  - reflexivity.
  - destruct (getMetaId_create k name photoURL trx w1) as [[id|e|] w2];
      reflexivity.
  - reflexivity.
  - exfalso; revert E1; unfold getMetaId_lookup, db_first, query.
    destruct (fuse w) as [[|n]|]; discriminate.
Qed.

End Resolve.



(* ================================================================== *)
(** ** Association attacher *)

Section Attach.

Variables (k : kind) (metadataId : nat).

Lemma attachMeta_unfold (name : string) (photoURL : option string) (trx : nat)
  (w : World) :
  attachMeta k metadataId name photoURL trx w
  = match getMetaId k name photoURL trx w with
    | (Fulfilled id, w1) => new_Promise (attach_link k metadataId id) w1
    | (_, w1) => (Pending, w1)
    end.
Proof.
  unfold attachMeta, new_Promise, try_catch, await at 1, attach_link, throw.
  destruct (getMetaId k name photoURL trx w) as [[id|e|] w1]; try reflexivity.
  destruct (await _ _ w1) as [[?|?|] ?]; reflexivity.
Qed.

Lemma is_open_begin (w : World) : is_open (trx_seq w) (snd (begin_trx w)) = true.
Proof.
  unfold is_open; simpl.
  rewrite existsb_app; simpl.
  rewrite Nat.eqb_refl; apply orb_true_r.
Qed.


End Attach.



(* ================================================================== *)
(** ** Entity resolver, two calls in flight *)

Lemma is_open_log_write (t t' : nat) (wr : table * nat) (w : World) :
  is_open t (log_write t' wr w) = is_open t w.
Proof.
  unfold is_open, log_write; simpl.
  induction (open_trx w) as [|e l IH]; simpl; [reflexivity|].
  rewrite IH; destruct (Nat.eqb (fst e) t'); reflexivity.
Qed.






(* ================================================================== *)
(** ** One call in flight alone is [attachMeta] *)











(* ================================================================== *)
(** ** The attach calls of one creation, under every schedule *)

Lemma is_open_begin_old (t : nat) (w : World) :
  is_open t (snd (begin_trx w)) = is_open t w || Nat.eqb (trx_seq w) t.
Proof.
  unfold is_open; simpl; rewrite existsb_app; simpl.
  rewrite orb_false_r; reflexivity.
Qed.

Lemma is_open_close (t t' : nat) (w : World) :
  t' <> t -> is_open t' (close_trx t w) = is_open t' w.
Proof.
  intros Hne; unfold is_open, close_trx; simpl.
  induction (open_trx w) as [|e l IH]; simpl; [reflexivity|].
  destruct (Nat.eqb_spec (fst e) t) as [E|E]; simpl.
  - rewrite IH.
    destruct (Nat.eqb_spec (fst e) t'); [congruence | reflexivity].
  - rewrite IH; reflexivity.
Qed.

Section Calls.

Variable T : nat.

Lemma world_ok_perm (w : World) (hs hs' : list nat) :
  Permutation hs hs' -> world_ok T w hs -> world_ok T w hs'.
Proof.
  intros P (Hf & Ho & Ht & Hn & Hi); repeat split; auto.
  - eapply Permutation_NoDup; eauto.
  - apply Hi; eapply Permutation_in; [apply Permutation_sym|]; eauto.
  - apply Hi; eapply Permutation_in; [apply Permutation_sym|]; eauto.
Qed.

Lemma call_ok_stable (w w' : World) (c : attach_call) :
  call_ok T w c ->
  (forall t, In t (held c) -> is_open t w' = is_open t w) ->
  call_ok T w' c.
Proof.
  unfold call_ok, held; intros [Ht H] Hs; split; [exact Ht|].
  destruct (a_pc c) as [[| | |]| | | | | |]; auto.
  rewrite Hs; [exact H | left; reflexivity].
Qed.

Lemma world_ok_same (w w' : World) (hs : list nat) :
  world_ok T w hs ->
  fuse w' = None -> is_open T w' = true -> trx_seq w' = trx_seq w ->
  world_ok T w' hs.
Proof.
  intros (Hf & Ho & Ht & Hn & Hi) Hf' Ho' Hs; unfold world_ok.
  rewrite Hs; auto.
Qed.

(** One step of a healthy call: it stays healthy, leaves the transactions
    of the other calls as they were, and has one await less before it. *)
Lemma attach_step_ok (c : attach_call) (w : World) (others : list nat) :
  world_ok T w (held c ++ others) ->
  call_ok T w c ->
  world_ok T (snd (attach_step c w)) (held (fst (attach_step c w)) ++ others)
  /\ call_ok T (snd (attach_step c w)) (fst (attach_step c w))
  /\ (forall t, In t others ->
        is_open t (snd (attach_step c w)) = is_open t w)
  /\ rank (fst (attach_step c w)) <= rank c - 1.
Proof.
  intros Hw [Hc Hp].
  pose proof Hw as (Hf & Ho & Ht & Hn & Hi).
  unfold attach_step, held, rank, call_ok in *.
  destruct (a_pc c) as [[| |id|e]|id|id count|id t|t| |] eqn:Epc;
    cbn [resolve_step]; try contradiction.
  - (* the lookup *)
    unfold getMetaId_lookup, db_first; rewrite query_healthy by exact Hf.
    destruct (find _ _); cbn [fst snd at_pc a_pc a_trx app];
      (split; [exact Hw | split; [split; [exact Hc | exact I] | split; [reflexivity | lia]]]).
  - (* the insert of the entity *)
    unfold getMetaId_create, insert_entity; rewrite query_healthy by exact Hf.
    rewrite Hc, Ho; cbn [fst snd at_pc a_pc a_trx app].
    split; [|split; [split; [exact Hc | exact I] | split; [|lia]]].
    + apply (world_ok_same w); auto.
      rewrite is_open_log_write; exact Ho.
    + intros t _; rewrite is_open_log_write; reflexivity.
  - (* the count *)
    unfold attachMeta_count, db_count; rewrite query_healthy by exact Hf.
    cbn [fst snd at_pc a_pc a_trx app].
    split; [exact Hw | split; [split; [exact Hc | exact I] | split; [reflexivity | lia]]].
  - (* the inner transaction begins *)
    destruct (begin_trx w) as [t w'] eqn:Eb.
    assert (Et : t = trx_seq w) by (unfold begin_trx in Eb; congruence).
    assert (Ew : w' = snd (begin_trx w)) by (rewrite Eb; reflexivity).
    assert (Hfresh : ~ In t others)
      by (intros Hin; apply Hi in Hin; lia).
    assert (Hold : forall t0, In t0 others -> is_open t0 w' = is_open t0 w).
    { intros t0 Hin; rewrite Ew, is_open_begin_old.
      apply Hi in Hin.
      destruct (Nat.eqb_spec (trx_seq w) t0); [lia | apply orb_false_r]. }
    assert (HT : is_open T w' = true)
      by (rewrite Ew, is_open_begin_old, Ho; reflexivity).
    assert (Hw' : world_ok T w' (t :: others)).
    { split; [rewrite Ew; exact Hf|].
      split; [exact HT|].
      split; [rewrite Ew; simpl; lia|].
      split; [constructor; assumption|].
      intros t0 [<-|Hin]; rewrite Ew; simpl.
      - lia.
      - apply Hi in Hin; lia. }
    assert (Hopen : is_open t w' = true)
      by (rewrite Ew, Et; apply is_open_begin).
    destruct (Nat.eqb count 0); cbn [fst snd at_pc a_pc a_trx app];
      (split; [exact Hw' | split; [split; [exact Hc | auto] | split; [exact Hold | lia]]]).
  - (* the insert of the junction row *)
    unfold attachMeta_insert, insert_mapping; rewrite query_healthy by exact Hf.
    rewrite Hp; cbn [fst snd at_pc a_pc a_trx app].
    split; [|split; [split; [exact Hc | exact I] | split; [|lia]]].
    + apply (world_ok_same w); auto.
      rewrite is_open_log_write; exact Ho.
    + intros t0 _; rewrite is_open_log_write; reflexivity.
  - (* the commit *)
    cbn [fst snd at_pc a_pc a_trx app].
    assert (HtT : t <> T) by (apply (Hi t); left; reflexivity).
    assert (Hnot : ~ In t others) by (inversion Hn; assumption).
    split; [|split; [split; [exact Hc | exact I] | split; [|lia]]].
    + split; [exact Hf|].
      split; [unfold commit; rewrite is_open_close by congruence; exact Ho|].
      split; [exact Ht|].
      split; [inversion Hn; assumption|].
      intros t0 Hin; apply (Hi t0); right; exact Hin.
    + intros t0 Hin; unfold commit; apply is_open_close.
      intros ->; contradiction.
  - cbn [fst snd]; rewrite Epc.
    split; [exact Hw | split; [split; [exact Hc | exact I] | split; [reflexivity | lia]]].
Qed.

(** A step of the schedule keeps the calls healthy; the call it names has
    one await less before it, no call has more. *)
Lemma step_nth_ok (i : nat) :
  forall cs w pre,
    calls_ok T w pre cs ->
    calls_ok T (snd (step_nth i cs w)) pre (fst (step_nth i cs w))
    /\ (forall t, In t pre -> is_open t (snd (step_nth i cs w)) = is_open t w)
    /\ length (fst (step_nth i cs w)) = length cs
    /\ (forall j c, nth_error cs j = Some c ->
          exists c', nth_error (fst (step_nth i cs w)) j = Some c'
                     /\ rank c' <= rank c - (if Nat.eqb j i then 1 else 0)).
Proof.
  induction i as [|i IH]; intros [|c cs] w pre [Hw Hc].
  - cbn [step_nth fst snd].
    split; [split; assumption|].
    split; [reflexivity|]; split; [reflexivity|].
    intros [|j] c; discriminate.
  - cbn [step_nth flat_map] in *.
    inversion Hc as [|? ? Hc1 Hcs]; subst.
    assert (Hw1 : world_ok T w (held c ++ pre ++ flat_map held cs))
      by (eapply world_ok_perm; [apply Permutation_app_swap_app | exact Hw]).
    destruct (attach_step_ok c w (pre ++ flat_map held cs) Hw1 Hc1)
      as (Hw' & Hc' & Hopen & Hr).
    destruct (attach_step c w) as [c' w']; cbn [fst snd] in *.
    split; [split|split; [|split]].
    + cbn [flat_map].
      eapply world_ok_perm; [apply Permutation_app_swap_app | exact Hw'].
    + constructor; [exact Hc'|].
      rewrite Forall_forall in Hcs |- *; intros x Hx.
      apply (call_ok_stable w); [apply Hcs, Hx|].
      intros t Ht; apply Hopen, in_or_app; right.
      apply in_flat_map; eauto.
    + intros t Ht; apply Hopen, in_or_app; left; exact Ht.
    + reflexivity.
    + intros [|j] x; cbn [nth_error Nat.eqb].
      * intros [= <-]; eauto.
      * intros E; exists x; split; [exact E | lia].
  - cbn [step_nth fst snd].
    split; [split; assumption|].
    split; [reflexivity|]; split; [reflexivity|].
    intros [|j] c; discriminate.
  - cbn [step_nth flat_map] in *.
    inversion Hc as [|? ? Hc1 Hcs]; subst.
    assert (Hw1 : calls_ok T w (pre ++ held c) cs)
      by (split; [rewrite <- app_assoc; exact Hw | exact Hcs]).
    destruct (IH cs w (pre ++ held c) Hw1) as ([Hw' Hc'] & Hopen & Hlen & Hr).
    destruct (step_nth i cs w) as [cs' w']; cbn [fst snd] in *.
    split; [split|split; [|split]].
    + cbn [flat_map]; rewrite <- app_assoc in Hw'; exact Hw'.
    + constructor; [|exact Hc'].
      apply (call_ok_stable w); [exact Hc1|].
      intros t Ht; apply Hopen, in_or_app; right; exact Ht.
    + intros t Ht; apply Hopen, in_or_app; left; exact Ht.
    + simpl; congruence.
    + intros [|j] x; cbn [nth_error Nat.eqb].
      * intros [= <-]; exists c; split; [reflexivity | lia].
      * apply Hr.
Qed.

Lemma run_sched_ok (sched : list nat) :
  forall cs w,
    calls_ok T w [] cs ->
    calls_ok T (snd (run_sched sched cs w)) [] (fst (run_sched sched cs w))
    /\ length (fst (run_sched sched cs w)) = length cs
    /\ (forall j c, nth_error cs j = Some c ->
          exists c', nth_error (fst (run_sched sched cs w)) j = Some c'
                     /\ rank c' <= rank c - count_occ Nat.eq_dec sched j).
Proof.
  induction sched as [|i s IH]; intros cs w H.
  - cbn [run_sched fst snd].
    split; [exact H|]; split; [reflexivity|].
    intros j c E; exists c; split; [exact E | cbn [count_occ]; lia].
  - cbn [run_sched].
    destruct (step_nth_ok i cs w [] H) as (H1 & _ & Hlen & Hr).
    destruct (step_nth i cs w) as [cs1 w1]; cbn [fst snd] in *.
    destruct (IH cs1 w1 H1) as (H2 & Hlen2 & Hr2).
    split; [exact H2 | split; [congruence|]].
    intros j c E.
    destruct (Hr j c E) as (c1 & E1 & R1).
    destruct (Hr2 j c1 E1) as (c2 & E2 & R2).
    exists c2; split; [exact E2|].
    cbn [count_occ].
    destruct (Nat.eq_dec i j) as [->|Hne].
    + rewrite Nat.eqb_refl in R1; lia.
    + lia.
Qed.

Lemma count_to_the_end (n j : nat) :
  j < n -> count_occ Nat.eq_dec (to_the_end n) j = 6.
Proof.
  unfold to_the_end; induction n as [|n IH]; [lia|].
  intros Hj; rewrite seq_S, flat_map_app, count_occ_app.
  change (flat_map (fun i => repeat i 6) [0 + n]) with (repeat n 6 ++ []).
  rewrite app_nil_r.
  destruct (Nat.eq_dec j n) as [->|Hne].
  - rewrite (count_occ_repeat_eq Nat.eq_dec) by reflexivity.
    assert (H0 : count_occ Nat.eq_dec
                   (flat_map (fun i => repeat i 6) (seq 0 n)) n = 0).
    { apply count_occ_not_In; rewrite in_flat_map.
      intros (x & Hx & Hin). apply repeat_spec in Hin.
      apply in_seq in Hx; lia. }
    rewrite H0; reflexivity.
  - rewrite IH by lia.
    rewrite (count_occ_repeat_neq Nat.eq_dec) by congruence; reflexivity.
Qed.

Lemma rank_le_6 (c : attach_call) : rank c <= 6.
Proof. unfold rank; destruct (a_pc c) as [[| | |]| | | | | |]; lia. Qed.

Lemma rank_0_resolved (w : World) (c : attach_call) :
  call_ok T w c -> rank c = 0 -> attach_resolved c = true.
Proof.
  unfold call_ok, rank, attach_resolved; intros [_ H].
  destruct (a_pc c) as [[| | |]| | | | | |]; try contradiction;
    try discriminate; reflexivity.
Qed.

(** On a healthy store, with the creating transaction open, the awaited
    calls are all fulfilled, whatever the schedule. *)
Lemma Promise_all_fulfils (sched : list nat) (cs : list attach_call) (w : World) :
  calls_ok T w [] cs ->
  fst (Promise_all sched cs w) = Fulfilled tt.
Proof.
  intros H; unfold Promise_all.
  destruct (run_sched_ok (sched ++ to_the_end (length cs)) cs w H)
    as ([_ Hc] & Hlen & Hr).
  destruct (run_sched _ cs w) as [cs' w']; cbn [fst snd] in *.
  assert (Hall : forallb attach_resolved cs' = true).
  { apply forallb_forall; intros c' Hin.
    destruct (In_nth_error _ _ Hin) as (j & Ej).
    assert (Hj : j < length cs)
      by (rewrite <- Hlen; apply nth_error_Some; congruence).
    destruct (nth_error cs j) as [c|] eqn:Ec;
      [|apply nth_error_None in Ec; lia].
    destruct (Hr j c Ec) as (c2 & E2 & R2).
    rewrite Ej in E2; injection E2 as <-.
    rewrite count_occ_app, count_to_the_end in R2 by exact Hj.
    pose proof (rank_le_6 c).
    rewrite Forall_forall in Hc.
    apply (rank_0_resolved w'); [apply Hc, Hin | lia]. }
  rewrite Hall; reflexivity.
Qed.

Lemma calls_ok_start (cs : list attach_call) (w : World) :
  fuse w = None -> is_open T w = true -> T < trx_seq w ->
  Forall (fun c => a_trx c = T /\ a_pc c = AResolve RLookup) cs ->
  calls_ok T w [] cs.
Proof.
  intros Hf Ho Ht Hs.
  assert (Hh : flat_map held cs = []).
  { induction Hs as [|c l [_ Hc] _ IH]; [reflexivity|].
    cbn [flat_map]; unfold held at 1; rewrite Hc, IH; reflexivity. }
  split.
  - cbn [app]; rewrite Hh.
    split; [exact Hf|]; split; [exact Ho|]; split; [exact Ht|].
    split; [constructor | intros t []].
  - eapply Forall_impl; [|exact Hs].
    intros c [Hc Hp]; unfold call_ok; rewrite Hp; auto.
Qed.

End Calls.

Lemma promises_start (d : JAVinfo) (metadataId trx : nat) :
  Forall (fun c => a_trx c = trx /\ a_pc c = AResolve RLookup)
         (promises d metadataId trx).
Proof.
  unfold promises.
  apply Forall_app; split; [|apply Forall_app; split].
  - destruct (truthy (series d)); repeat constructor.
  - apply Forall_forall; intros c Hc.
    apply in_map_iff in Hc; destruct Hc as (x & <- & _); split; reflexivity.
  - apply Forall_forall; intros c Hc.
    apply in_map_iff in Hc; destruct Hc as (x & <- & _); split; reflexivity.
Qed.

Lemma is_open_closed (t : nat) (w : World) : is_open t (close_trx t w) = false.
Proof.
  unfold is_open, close_trx; simpl.
  induction (open_trx w) as [|e l IH]; simpl; [reflexivity|].
  destruct (Nat.eqb_spec (fst e) t) as [E|E]; simpl; [exact IH|].
  rewrite IH; destruct (Nat.eqb_spec (fst e) t); [contradiction | reflexivity].
Qed.

(* ================================================================== *)
(** ** Creation path *)

(** The retry loop touches the network script and the request counter
    only; it fulfils with the first answer within its attempts, and rejects
    after using all of them when there is none. *)
Lemma pRetry_http_get (r : nat) :
  forall w, exists net' n,
    pRetry r http_get w
    = (match first_some (firstn (S r) (network w)) with
       | Some d => Fulfilled d
       | None => Rejected TransportError
       end,
       with_network net' (n + requests w) w)
    /\ (first_some (firstn (S r) (network w)) = None -> n = S r).
Proof.
  induction r as [|r IH]; intros w.
  - unfold pRetry, http_get.
    destruct (network w) as [|[d|] rest]; simpl.
    + exists [], 1; auto.
    + exists rest, 1; split; [reflexivity | discriminate].
    + exists rest, 1; auto.
  - change (pRetry (S r) http_get w)
      with (match http_get w with
            | (Some a, w') => (Fulfilled a, w')
            | (None, w') => pRetry r http_get w'
            end).
    unfold http_get at 1.
    destruct (network w) as [|[d|] rest] eqn:En.
    + destruct (IH (with_network [] (S (requests w)) w)) as (net' & n & E & Hn).
      rewrite E; simpl.
      exists net', (S n); split.
      * replace (S n + requests w) with (n + S (requests w)) by lia; reflexivity.
      * intros _; f_equal; apply Hn; destruct r; reflexivity.
    + exists rest, 1; split; [reflexivity | discriminate].
    + destruct (IH (with_network rest (S (requests w)) w)) as (net' & n & E & Hn).
      rewrite E.
      change (network (with_network rest (S (requests w)) w)) with rest.
      change (firstn (S (S r)) (None :: rest)) with (None :: firstn (S r) rest).
      cbn [first_some].
      exists net', (S n); split.
      * replace (S n + requests w) with (n + S (requests w)) by lia; reflexivity.
      * intros H; f_equal; apply Hn; exact H.
Qed.

Lemma writes_of_closed (t : nat) (w : World) :
  is_open t w = false -> writes_of t w = [].
Proof.
  unfold is_open, writes_of.
  induction (open_trx w) as [|e l IH]; simpl; [reflexivity|].
  destruct (Nat.eqb (fst e) t); simpl; [discriminate | exact IH].
Qed.

Lemma rollback_nothing (t : nat) (w : World) :
  writes_of t w = [] -> rollback t w = close_trx t w.
Proof. unfold rollback; intros ->; reflexivity. Qed.

(** A transaction that has just begun has written nothing. *)
Lemma writes_of_begin (w : World) :
  is_open (trx_seq w) w = false ->
  writes_of (trx_seq w) (snd (begin_trx w)) = [].
Proof.
  intros H; unfold writes_of; simpl.
  rewrite flat_map_app; simpl.
  rewrite Nat.eqb_refl, app_nil_r.
  apply (writes_of_closed _ _ H).
Qed.

Lemma getMetadataId_unseen (JAVID companyName companyId : string) (rest : list string)
  (sched : list nat) (w : World) :
  fuse w = None ->
  split "-"%char JAVID = companyName :: companyId :: rest ->
  unseen companyName companyId w ->
  getMetadataId JAVID sched w
  = new_Promise
      (try_catch (db_transaction (create_handler JAVID companyName companyId sched))
                 (fun error w => (Pending, w))) w.
Proof.
  intros Hf Hs Hu.
  unfold getMetadataId, new_Promise, try_catch; rewrite Hs.
  unfold await at 1, find_by_key, db_first.
  rewrite query_healthy by exact Hf.
  rewrite Hu; reflexivity.
Qed.

(** C3, what the code does when all six attempts fail: the promise of
    [getMetadataId] never settles (the [catch] of line 162 only logs); six
    requests were made, and neither the ignore register nor [metadatas]
    changed.  The caller receives no error. *)
Theorem C3_fetch_exhausted_never_settles :
  exists w',
    getMetadataId "ABC-001" [] (Sample.fresh []) = (Pending, w')
    /\ fetched (Sample.fresh []) = None
    /\ requests w' = 6
    /\ ignored w' = []
    /\ metadatas w' = [].
Proof. eexists; split; [vm_compute; reflexivity | repeat split]. Qed.

(** The same on every healthy store and every key not seen before. *)
Lemma fetch_exhausted (JAVID companyName companyId : string) (rest : list string)
  (sched : list nat) (w : World) :
  fuse w = None ->
  is_open (trx_seq w) w = false ->
  split "-"%char JAVID = companyName :: companyId :: rest ->
  unseen companyName companyId w ->
  fetched w = None ->
  exists w',
    getMetadataId JAVID sched w = (Pending, w')
    /\ requests w' = 6 + requests w
    /\ ignored w' = ignored w
    /\ metadatas w' = metadatas w.
Proof.
  intros Hf Hw Hs Hu Hn.
  rewrite (getMetadataId_unseen _ _ _ _ _ _ Hf Hs Hu).
  unfold new_Promise, try_catch, db_transaction.
  destruct (begin_trx w) as [t w1] eqn:Eb.
  assert (Ht : t = trx_seq w) by (unfold begin_trx in Eb; congruence).
  assert (Hw1 : w1 = snd (begin_trx w)) by (rewrite Eb; reflexivity).
  unfold create_handler, await at 1, fetchNew, await at 1.
  destruct (pRetry_http_get 5 w1) as (net' & n & E & Hn6).
  assert (Hnet : network w1 = network w) by (subst w1; reflexivity).
  unfold fetched in Hn; rewrite Hnet in E, Hn6; rewrite Hn in E, Hn6.
  rewrite E, (Hn6 eq_refl).
  rewrite rollback_nothing
    by (subst t w1; apply (writes_of_begin w Hw)).
  eexists; split; [reflexivity|].
  subst w1; repeat split.
Qed.

Lemma keeps_refl (w : World) : fuse w = None -> keeps w w.
Proof. unfold keeps; auto. Qed.

Lemma keeps_trans (w1 w2 w3 : World) : keeps w1 w2 -> keeps w2 w3 -> keeps w1 w3.
Proof. unfold keeps; intuition congruence. Qed.

Lemma attach_step_keeps (c : attach_call) (w : World) :
  fuse w = None -> keeps w (snd (attach_step c w)).
Proof.
  intros Hf; unfold attach_step.
  destruct (a_pc c) as [[| |id|e]|id|id count|id t|t| |]; cbn [resolve_step].
  - unfold getMetaId_lookup, db_first; rewrite query_healthy by exact Hf.
    destruct (find _ _); apply keeps_refl, Hf.
  - unfold getMetaId_create, insert_entity; rewrite query_healthy by exact Hf.
    destruct (is_open (a_trx c) w); repeat split; exact Hf.
  - apply keeps_refl, Hf.
  - apply keeps_refl, Hf.
  - unfold attachMeta_count, db_count; rewrite query_healthy by exact Hf.
    apply keeps_refl, Hf.
  - destruct (begin_trx w) as [t w'] eqn:Eb.
    assert (Hw : w' = snd (begin_trx w)) by (rewrite Eb; reflexivity).
    destruct (Nat.eqb count 0); subst w'; repeat split; exact Hf.
  - unfold attachMeta_insert, insert_mapping; rewrite query_healthy by exact Hf.
    destruct (is_open t w) eqn:Eo.
    + repeat split; exact Hf.
    + cbn [snd]; rewrite rollback_nothing by (apply writes_of_closed, Eo).
      repeat split; exact Hf.
  - repeat split; exact Hf.
  - apply keeps_refl, Hf.
  - apply keeps_refl, Hf.
Qed.

Lemma step_nth_keeps (i : nat) :
  forall cs w, fuse w = None -> keeps w (snd (step_nth i cs w)).
Proof.
  induction i as [|i IH]; intros [|c cs] w Hf; simpl;
    try (apply keeps_refl, Hf).
  - pose proof (attach_step_keeps c w Hf) as H.
    destruct (attach_step c w); exact H.
  - pose proof (IH cs w Hf) as H.
    destruct (step_nth i cs w); exact H.
Qed.

Lemma run_sched_keeps (sched : list nat) :
  forall cs w, fuse w = None -> keeps w (snd (run_sched sched cs w)).
Proof.
  induction sched as [|i s IH]; intros cs w Hf; simpl.
  - apply keeps_refl, Hf.
  - pose proof (step_nth_keeps i cs w Hf) as H.
    destruct (step_nth i cs w) as [cs' w']; simpl in H.
    eapply keeps_trans; [exact H | apply IH, H].
Qed.

Lemma Promise_all_keeps (sched : list nat) (cs : list attach_call) (w : World) :
  fuse w = None -> keeps w (snd (Promise_all sched cs w)).
Proof.
  intros Hf; unfold Promise_all.
  pose proof (run_sched_keeps (sched ++ to_the_end (length cs)) cs w Hf) as H.
  destruct (run_sched _ cs w) as [cs' w'].
  destruct (forallb attach_resolved cs'); exact H.
Qed.

(** C10: for a key not seen before whose page was fetched and extracted,
    on a healthy store and under every schedule of the attach calls: when the
    page has no info block, no tag or no star, [getMetadataId] fulfils with 0,
    appends the key to the ignore register and inserts no base row; otherwise
    it fulfils with the id of the one base row it inserts, which carries the
    pieces of the key, commits the creating transaction and leaves the ignore
    register as it was. *)
Theorem C10_ignore_unless_tags_and_stars (JAVID companyName companyId : string)
  (rest : list string) (sched : list nat) (w : World) (dom : document)
  (JAVinfo : option JAVinfo) :
  fuse w = None ->
  split "-"%char JAVID = companyName :: companyId :: rest ->
  unseen companyName companyId w ->
  fetched w = Some dom ->
  extractFields dom = Return JAVinfo ->
  if unusable JAVinfo then
    exists w',
      getMetadataId JAVID sched w = (Fulfilled 0, w')
      /\ ignored w' = ignored w ++ [JAVID]
      /\ metadatas w' = metadatas w
  else
    exists w' row,
      getMetadataId JAVID sched w = (Fulfilled (m_id row), w')
      /\ metadatas w' = metadatas w ++ [row]
      /\ m_companyName row = companyName /\ m_companyId row = companyId
      /\ is_open (trx_seq w) w' = false
      /\ ignored w' = ignored w.
Proof.
  intros Hf Hs Hu Hd He.
  rewrite (getMetadataId_unseen _ _ _ _ _ _ Hf Hs Hu).
  unfold new_Promise, try_catch, db_transaction.
  destruct (begin_trx w) as [t w1] eqn:Eb.
  assert (Ht : t = trx_seq w) by (unfold begin_trx in Eb; congruence).
  assert (Hw1 : w1 = snd (begin_trx w)) by (rewrite Eb; reflexivity).
  destruct (pRetry_http_get 5 w1) as (net' & n & E & _).
  assert (Hnet : network w1 = network w) by (subst w1; reflexivity).
  unfold fetched in Hd; rewrite Hnet, Hd in E.
  set (w2 := with_network net' (n + requests w1) w1) in E.
  assert (Hf2 : fuse w2 = None) by (subst w2 w1; exact Hf).
  assert (Hc : create_handler JAVID companyName companyId sched t w1
               = create_with JAVID companyName companyId sched t JAVinfo w2).
  { unfold create_handler, await at 1, fetchNew, await at 1.
    rewrite E, He; reflexivity. }
  rewrite Hc; unfold create_with.
  destruct JAVinfo as [d|]; cbn [unusable].
  - destruct (Nat.eqb (length (tags d)) 0 || Nat.eqb (length (stars d)) 0).
    + eexists; split; [reflexivity|].
      subst w2 w1; split; reflexivity.
    + unfold await at 1, insert_metadata.
      rewrite query_healthy by exact Hf2.
      assert (Ho : is_open t w2 = true)
        by (subst w2 w1 t; apply (is_open_begin w)).
      rewrite Ho.
      set (id := next_id (map m_id (metadatas w2))).
      set (w3 := log_write t (Metadatas, id) _).
      assert (Hf3 : fuse w3 = None) by exact Hf2.
      assert (Ho3 : is_open t w3 = true)
        by (unfold w3; rewrite is_open_log_write; exact Ho).
      assert (Ht3 : t < trx_seq w3) by (subst w3 w2 w1 t; simpl; lia).
      pose proof (Promise_all_keeps sched (promises d id t) w3 Hf3) as (_ & Km & Ki).
      pose proof (Promise_all_fulfils t sched (promises d id t) w3
                    (calls_ok_start t _ w3 Hf3 Ho3 Ht3 (promises_start d id t))) as Hp.
      unfold await.
      destruct (Promise_all sched (promises d id t) w3) as [p w4];
        cbn [fst snd] in Km, Ki, Hp; subst p; cbn [ret].
      exists (commit t w4), (new_metadata d companyName companyId w2 id).
      split; [reflexivity|].
      split; [cbn [commit close_trx with_trx metadatas]; rewrite Km;
              subst w3 w2 w1; reflexivity|].
      split; [reflexivity|]; split; [reflexivity|].
      split; [rewrite <- Ht; apply is_open_closed|].
      cbn [commit close_trx with_trx ignored]; rewrite Ki.
      subst w3 w2 w1; reflexivity.
  - eexists; split; [reflexivity|].
    subst w2 w1; split; reflexivity.
Qed.

(** C2, at a page with one star and one tag, on a store that fails the
    insert of the tag (the eighth query): the promise never settles and the
    creating transaction, number 0, is neither committed nor rolled back; it
    holds the base row and the star, not the junction row of the star, which
    its own transaction (line 427) has already committed. *)
Theorem C2_failed_attach_keeps_junction_row :
  exists w',
    getMetadataId "ABC-001" []
      (with_fuse (Some 7) (Sample.fresh [Some Sample.page_star_tag]))
    = (Pending, w')
    /\ open_trx w' = [(0, [(Metadatas, 1); (Entities Star, 1)])]
    /\ map m_id (metadatas w') = [1]
    /\ committed Metadatas 1 w' = false
    /\ mappings w' Star
       = [{| j_id := 1; j_metadataId := 1; j_entityId := 1; j_updateTime := 7 |}]
    /\ committed (Mappings Star) 1 w' = true
    /\ entities w' Tag = []
    /\ mappings w' Tag = [].
Proof. eexists; split; [vm_compute; reflexivity | repeat split]. Qed.

(** C1, at two records created one after the other whose pages name the
    same series: both creations fulfil, the second record is attached to
    series 1 by the junction row 2, and [getMetadataById] of the second record
    returns no series (line 379 looks the series up by the id of the junction
    row); the photo path of its star carries the proxy prefix twice. *)
Theorem C1_series_read_by_junction_row_id :
  exists w1 w2 w3 info,
    getMetadataId "ABC-001" []
      (Sample.fresh [Some Sample.page_ABC_001; Some Sample.page_ABC_002])
    = (Fulfilled 1, w1)
    /\ getMetadataId "ABC-002" [] w1 = (Fulfilled 2, w2)
    /\ map e_name (entities w2 Series) = ["S1"]
    /\ mappings w2 Series
       = [{| j_id := 1; j_metadataId := 1; j_entityId := 1; j_updateTime := 7 |};
          {| j_id := 2; j_metadataId := 2; j_entityId := 1; j_updateTime := 7 |}]
    /\ getMetadataById 2 w2 = (Fulfilled (Some info), w3)
    /\ metas_series (i_metas info) = None
    /\ map (option_map e_photoURL) (metas_stars (i_metas info))
       = [Some (Some "/proxy/proxy/actress/k.jpg")].
Proof.
  do 4 eexists.
  split; [vm_compute; reflexivity|].
  split; [vm_compute; reflexivity|].
  split; [reflexivity|].
  split; [reflexivity|].
  split; [vm_compute; reflexivity|].
  split; reflexivity.
Qed.

Lemma C10_ignore_unless_tags_and_stars_witness :
  (exists w',
     getMetadataId "ABC-001" [] (Sample.fresh [None; Some Sample.page_no_star])
     = (Fulfilled 0, w')
     /\ ignored w' = ignored (Sample.fresh [None; Some Sample.page_no_star]) ++ ["ABC-001"]
     /\ metadatas w' = metadatas (Sample.fresh [None; Some Sample.page_no_star]))
  /\ (exists w' row,
        getMetadataId "ABC-001" [3; 0; 1; 2; 3; 0; 0; 2]
                      (Sample.fresh [Some Sample.page_ABC_001])
        = (Fulfilled (m_id row), w')
        /\ metadatas w' = metadatas (Sample.fresh [Some Sample.page_ABC_001]) ++ [row]
        /\ m_companyName row = "ABC" /\ m_companyId row = "001"
        /\ is_open (trx_seq (Sample.fresh [Some Sample.page_ABC_001])) w' = false
        /\ ignored w' = ignored (Sample.fresh [Some Sample.page_ABC_001])).
Proof.
  split.
  - apply (C10_ignore_unless_tags_and_stars "ABC-001" "ABC" "001" [] []
             (Sample.fresh [None; Some Sample.page_no_star]) Sample.page_no_star
             (match extractFields Sample.page_no_star with
              | Return i => i
              | Throw _ => None
              end));
      reflexivity.
  - apply (C10_ignore_unless_tags_and_stars "ABC-001" "ABC" "001" []
             [3; 0; 1; 2; 3; 0; 0; 2]
             (Sample.fresh [Some Sample.page_ABC_001]) Sample.page_ABC_001
             (match extractFields Sample.page_ABC_001 with
              | Return i => i
              | Throw _ => None
              end));
      reflexivity.
Defined.

(* ================================================================== *)
(** ** Field extraction: what each loop contributes *)







(** A paragraph never throws: a node with a first child has a last one. *)
Lemma scan_p_returns (item : node) (data : JAVinfo) :
  exists d, scan_p item data = Return d.
Proof.
  unfold scan_p, firstChild, lastChild.
  destruct (truthy (releaseDate data)); [eauto|].
  destruct (children_of item) as [|c cs]; cbn [hd_error]; [eauto|].
  destruct (includes date_marker (textContent c)); [|eauto].
  destruct (rev (c :: cs)) as [|x r] eqn:E; cbn [hd_error]; [|eauto].
  apply (f_equal (@length node)) in E; rewrite length_rev in E; discriminate.
Qed.

Lemma scan_ps_return (ps : list node) :
  forall data, exists d, for_each scan_p ps data = Return d.
Proof.
  induction ps as [|x l IH]; intros data; simpl; [eauto|].
  destruct (scan_p_returns x data) as [d1 ->]; simpl; apply IH.
Qed.

Lemma scan_img_complete (item : node) (data : JAVinfo) :
  match scan_img item data with
  | Return _ => img_complete item = true
  | Throw e => e = TypeError /\ img_complete item = false
  end.
Proof.
  unfold scan_img, img_complete.
  destruct (nth_error (attributes_of item) 0) as [a0|]; [|reflexivity].
  destruct (star_marker (value a0)); cbn [orb].
  - destruct (nth_error (attributes_of item) 1); auto.
  - destruct (cover_marker (value a0)); [|reflexivity].
    destruct (nth_error (attributes_of item) 1); auto.
Qed.

Lemma scan_imgs_complete (imgs : list node) :
  forall data,
    match for_each scan_img imgs data with
    | Return _ => forallb img_complete imgs = true
    | Throw e => e = TypeError /\ forallb img_complete imgs = false
    end.
Proof.
  induction imgs as [|x l IH]; intros data; simpl; [reflexivity|].
  pose proof (scan_img_complete x data) as Hx.
  destruct (scan_img x data) as [d1|e]; simpl.
  - rewrite Hx; apply IH.
  - destruct Hx as [-> ->]; auto.
Qed.

(** The extraction throws on exactly the documents that have an info block
    and either no media block or, in the media block, an image with a star
    or cover marker in its first attribute and no second attribute; what it
    throws is a [TypeError]. *)
Theorem extractFields_throws_exactly (dom : document) :
  match extractFields dom with
  | Return _ => extract_safe dom = true
  | Throw e => e = TypeError /\ extract_safe dom = false
  end.
Proof.
  unfold extractFields, extract_safe, media_images.
  destruct (getElementsByClassName dom "info") as [|info ?]; [reflexivity|].
  destruct (getElementsByClassName dom "movie") as [|movie ?]; [auto|].
  match goal with
  | |- context [for_each scan_img ?l ?d] =>
      pose proof (scan_imgs_complete l d) as Hi;
      destruct (for_each scan_img l d) as [d1|e]
  end; simpl.
  - match goal with
    | |- context [for_each scan_p ?l ?d] =>
        destruct (scan_ps_return l d) as [d2 ->]
    end; exact Hi.
  - exact Hi.
Qed.


















(* ================================================================== *)
(** ** Read path: what a read returns *)

Lemma same_store_refl (w : World) : same_store w w.
Proof. unfold same_store; repeat split. Qed.

Lemma same_store_trans (w1 w2 w3 : World) :
  same_store w1 w2 -> same_store w2 w3 -> same_store w1 w3.
Proof. unfold same_store; intuition congruence. Qed.

Lemma same_store_cache (c : list (kind * nat * entity_row)) (w : World) :
  same_store w (with_cache c w).
Proof. unfold same_store; repeat split. Qed.

Lemma same_store_fuse (f : option nat) (w : World) : same_store w (with_fuse f w).
Proof. unfold same_store; repeat split. Qed.

Lemma reader_ret {A} (W : World) (a : A) (post : A -> Prop) :
  post a -> reader_at W (ret a) post.
Proof.
  intros H w Hs Hf Hc; exists a, w.
  split; [reflexivity|]; auto.
Qed.

Lemma reader_await {A B} (W : World) (m : async A) (k : A -> async B)
  (P : A -> Prop) (post : B -> Prop) :
  reader_at W m P ->
  (forall a, P a -> reader_at W (k a) post) ->
  reader_at W (await m k) post.
Proof.
  intros Hm Hk w Hs Hf Hc.
  destruct (Hm w Hs Hf Hc) as (a & w1 & E & Hs1 & Hf1 & Hc1 & Pa).
  destruct (Hk a Pa w1 Hs1 Hf1 Hc1) as (b & w2 & E2 & H2).
  exists b, w2; split; [|exact H2].
  unfold await; rewrite E; exact E2.
Qed.

Lemma reader_weaken {A} (W : World) (m : async A) (P Q : A -> Prop) :
  reader_at W m P -> (forall a, P a -> Q a) -> reader_at W m Q.
Proof.
  intros Hm HPQ w Hs Hf Hc.
  destruct (Hm w Hs Hf Hc) as (a & w1 & E & Hs1 & Hf1 & Hc1 & Pa).
  exists a, w1; split; [exact E|]; auto.
Qed.

Lemma reader_for_await {A B} (W : World) (body : A -> async B)
  (P : A -> B -> Prop) (l : list A) :
  (forall x, In x l -> reader_at W (body x) (P x)) ->
  reader_at W (for_await body l) (Forall2 P l).
Proof.
  induction l as [|x l IH]; intros H; cbn [for_await].
  - apply reader_ret; constructor.
  - eapply reader_await; [apply H; left; reflexivity|].
    intros y Py.
    eapply reader_await; [apply IH; intros z Hz; apply H; right; exact Hz|].
    intros ys Pys; apply reader_ret; constructor; assumption.
Qed.

(** A query that only reads. *)
Lemma reader_query {A} (W : World) (f : World -> A) (post : A -> Prop) :
  (forall w, same_store W w -> post (f w)) ->
  reader_at W (query (fun w => (Fulfilled (f w), w))) post.
Proof.
  intros H w Hs Hf Hc; exists (f w), w.
  rewrite query_healthy by exact Hf.
  split; [reflexivity|]; auto.
Qed.

Lemma kind_eqb_spec (a b : kind) : reflect (a = b) (kind_eqb a b).
Proof. destruct a, b; constructor; congruence. Qed.

Lemma cache_find_app (k : kind) (id : nat) (w : World)
  (k' : kind) (id' : nat) (r : entity_row) :
  cache_find k id (with_cache (cache_entries w ++ [(k', id', r)]) w)
  = match cache_find k id w with
    | Some x => Some x
    | None => if kind_eqb k' k && Nat.eqb id' id then Some r else None
    end.
Proof.
  unfold cache_find; cbn [cache_entries with_cache].
  induction (cache_entries w) as [|e l IH]; cbn [app find].
  - unfold cache_key_eqb; cbn [fst snd].
    destruct (kind_eqb k' k && Nat.eqb id' id); reflexivity.
  - destruct (cache_key_eqb k id e); [reflexivity | exact IH].
Qed.

Lemma cache_find_assign (k : kind) (id : nat) (w : World)
  (k' : kind) (id' : nat) (r : entity_row) :
  cache_find k id
    (with_cache (map (fun e => if cache_key_eqb k' id' e then (k', id', r) else e)
                     (cache_entries w)) w)
  = match cache_find k id w with
    | Some x => if kind_eqb k' k && Nat.eqb id' id then Some r else Some x
    | None => None
    end.
Proof.
  unfold cache_find; cbn [cache_entries with_cache].
  induction (cache_entries w) as [|e l IH]; cbn [map find]; [reflexivity|].
  destruct e as [[ke ie] re]; unfold cache_key_eqb in *; cbn [fst snd] in *.
  destruct (kind_eqb_spec ke k') as [->|Hk]; cbn [andb].
  - destruct (Nat.eqb_spec ie id') as [->|Hi]; cbn [fst snd].
    + destruct (kind_eqb k' k && Nat.eqb id' id); [reflexivity | exact IH].
    + destruct (kind_eqb_spec k' k) as [->|Hk2]; cbn [andb].
      * destruct (Nat.eqb_spec ie id) as [->|Hi2]; cbn [option_map snd].
        -- destruct (Nat.eqb_spec id' id); [congruence | reflexivity].
        -- exact IH.
      * exact IH.
  - cbn [fst snd].
    destruct (kind_eqb_spec ke k) as [->|Hk2]; cbn [andb].
    + destruct (Nat.eqb_spec ie id) as [->|Hi2]; cbn [option_map snd].
      * destruct (kind_eqb_spec k' k); [congruence | reflexivity].
      * exact IH.
    + exact IH.
Qed.

Lemma agrees_app (w : World) (k : kind) (id : nat) (r0 : entity_row) :
  cache_agrees w ->
  entity_by_id k id w = Some r0 ->
  cache_agrees (with_cache (cache_entries w ++ [(k, id, r0)]) w).
Proof.
  intros Hc Hr k2 id2 r; rewrite cache_find_app.
  destruct (cache_find k2 id2 w) as [x|] eqn:E.
  - intros [= <-]; apply (Hc _ _ _ E).
  - destruct (kind_eqb_spec k k2) as [<-|]; [|discriminate].
    destruct (Nat.eqb_spec id id2) as [<-|]; [|discriminate].
    intros [= <-]; exists r0; auto.
Qed.

Lemma agrees_assign (w : World) (k : kind) (id : nat) (r r' : entity_row) :
  cache_agrees w ->
  cache_find k id w = Some r ->
  e_id r' = e_id r -> e_name r' = e_name r ->
  cache_agrees
    (with_cache (map (fun e => if cache_key_eqb k id e then (k, id, r') else e)
                     (cache_entries w)) w).
Proof.
  intros Hc Hr Hi Hn k2 id2 x; rewrite cache_find_assign.
  destruct (cache_find k2 id2 w) as [y|] eqn:E; [|discriminate].
  destruct (kind_eqb_spec k k2) as [<-|]; cbn [andb];
    [|intros [= <-]; apply (Hc _ _ _ E)].
  destruct (Nat.eqb_spec id id2) as [<-|];
    [|intros [= <-]; apply (Hc _ _ _ E)].
  intros [= <-].
  rewrite Hr in E; injection E as <-.
  destruct (Hc _ _ _ Hr) as (r0 & H0 & H1 & H2).
  exists r0; repeat split; [exact H0 | congruence | congruence].
Qed.

Lemma entity_by_id_id (k : kind) (id : nat) (w : World) (r : entity_row) :
  entity_by_id k id w = Some r -> e_id r = id.
Proof.
  unfold entity_by_id; intros H; apply find_some in H.
  destruct H as [_ H]; apply Nat.eqb_eq in H; exact H.
Qed.

(** The read of an entity gives the row the store has under the id, as far
    as id and name go, and [null] when the store has none. *)
Lemma getMetaInfoByMetaId_reader (W : World) (k : kind) (id : nat) :
  reader_at W (getMetaInfoByMetaId k id)
            (fun res => names_row res (entity_by_id k id W)).
Proof.
  intros w Hs Hf Hc.
  assert (He : entity_by_id k id W = entity_by_id k id w)
    by (unfold entity_by_id; destruct Hs as (_ & -> & _); reflexivity).
  rewrite He; clear He.
  unfold getMetaInfoByMetaId, await, cache.
  destruct (cache_find k id w) as [r|] eqn:Ecf.
  - destruct (Hc _ _ _ Ecf) as (r0 & H0 & H1 & H2).
    destruct (photo_truthy (e_photoURL r)).
    + eexists; eexists; split; [reflexivity|].
      split; [exact Hs|].
      split; [exact Hf|].
      split; [apply (agrees_assign w k id r); auto|].
      rewrite H0; split; cbn [option_map e_id e_name]; congruence.
    + eexists; eexists; split; [reflexivity|].
      split; [exact Hs|]; split; [exact Hf|]; split; [exact Hc|].
      rewrite H0; split; cbn [option_map]; congruence.
  - unfold db_first; rewrite query_healthy by exact Hf.
    fold (entity_by_id k id w).
    destruct (entity_by_id k id w) as [r0|] eqn:E0.
    + pose proof (agrees_app w k id r0 Hc E0) as Hc1.
      set (w1 := with_cache (cache_entries w ++ [(k, id, r0)]) w) in *.
      assert (Ecf1 : cache_find k id w1 = Some r0).
      { unfold w1; rewrite cache_find_app, Ecf, kind_eqb_refl, Nat.eqb_refl.
        reflexivity. }
      destruct (photo_truthy (e_photoURL r0)).
      * eexists; eexists; split; [reflexivity|].
        split; [exact Hs|].
        split; [exact Hf|].
        split; [apply (agrees_assign w1 k id r0); auto|].
        split; reflexivity.
      * eexists; eexists; split; [reflexivity|].
        split; [exact Hs|].
        split; [exact Hf|]; split; [exact Hc1|].
        split; reflexivity.
    + eexists; eexists; split; [reflexivity|].
      split; [exact Hs|]; split; [exact Hf|]; split; [exact Hc|].
      split; reflexivity.
Qed.

Lemma find_hd_filter {A} (p : A -> bool) (l : list A) :
  find p l = hd_error (filter p l).
Proof.
  induction l as [|x l IH]; cbn [find filter]; [reflexivity|].
  destruct (p x); [reflexivity | exact IH].
Qed.

Lemma getMetaByMetadataId_reader (W : World) (id : nat) :
  reader_at W (getMetaByMetadataId id) (metas_read W id).
Proof.
  unfold getMetaByMetadataId, db_select, db_first.
  eapply reader_await with (P := fun result => result = junctions_of Tag id W).
  { apply reader_query; intros w Hs; unfold junctions_of.
    destruct Hs as (_ & _ & -> & _); reflexivity. }
  intros ? ->.
  eapply reader_await;
    [apply reader_for_await; intros j _; apply getMetaInfoByMetaId_reader|].
  intros tags Htags.
  eapply reader_await with (P := fun result => result = junctions_of Star id W).
  { apply reader_query; intros w Hs; unfold junctions_of.
    destruct Hs as (_ & _ & -> & _); reflexivity. }
  intros ? ->.
  eapply reader_await;
    [apply reader_for_await; intros j _; apply getMetaInfoByMetaId_reader|].
  intros stars Hstars.
  eapply reader_await
    with (P := fun result => result = hd_error (junctions_of Series id W)).
  { apply reader_query; intros w Hs; unfold junctions_of.
    destruct Hs as (_ & _ & -> & _); apply find_hd_filter. }
  intros ? ->.
  destruct (hd_error (junctions_of Series id W)) as [j|] eqn:Ej.
  - eapply reader_await; [apply getMetaInfoByMetaId_reader|].
    intros series Hseries; apply reader_ret.
    unfold metas_read; rewrite Ej; auto.
  - eapply reader_await with (P := fun res => res = None);
      [apply reader_ret; reflexivity|].
    intros series ->; apply reader_ret.
    unfold metas_read; rewrite Ej; auto.
Qed.

Lemma assemble_reader (W : World) (r : metadata_row) :
  reader_at W (assemble r) (assembled W r).
Proof.
  intros w Hs Hf Hc; unfold assemble.
  destruct (getMetaByMetadataId_reader W (m_id r) w Hs Hf Hc)
    as (m & w1 & E & Hs1 & Hf1 & Hc1 & Hm).
  unfold await; rewrite E; cbn [ret].
  eexists; eexists; split; [reflexivity|].
  split; [exact Hs1|]; split; [exact Hf1|]; split; [exact Hc1|].
  unfold assembled; cbn [i_JAVID i_row i_metas m_posterFileURL m_id m_title m_releaseDate].
  destruct Hs as (_ & _ & _ & _ & _ & _ & _ & _ & -> & _).
  repeat split; try reflexivity; apply Hm.
Qed.

Lemma getMetadataById_reader (W : World) (id : nat) :
  reader_at W (getMetadataById id)
            (fun res => match metadata_by_id id W with
                        | Some r => exists info, res = Some info /\ assembled W r info
                        | None => res = None
                        end).
Proof.
  intros w Hs Hf Hc.
  assert (Hm : metadata_by_id id W = metadata_by_id id w)
    by (unfold metadata_by_id; destruct Hs as (-> & _); reflexivity).
  rewrite Hm; clear Hm.
  unfold getMetadataById, await at 1, db_first.
  rewrite query_healthy by exact Hf.
  fold (metadata_by_id id w).
  destruct (metadata_by_id id w) as [r|] eqn:Er.
  - assert (Hid : m_id r = id).
    { unfold metadata_by_id in Er; apply find_some in Er.
      destruct Er as [_ Er]; apply Nat.eqb_eq in Er; exact Er. }
    destruct (assemble_reader W r w Hs Hf Hc) as (info & w1 & E & Hs1 & Hf1 & Hc1 & Hi).
    revert E; unfold assemble; rewrite Hid.
    unfold await; destruct (getMetaByMetadataId id w) as [[m| |] w2]; try discriminate.
    cbn [ret]; intros [= <- <-].
    eexists; eexists; split; [reflexivity|].
    split; [exact Hs1|]; split; [exact Hf1|]; split; [exact Hc1|].
    eexists; split; [reflexivity | exact Hi].
  - eexists; eexists; split; [reflexivity|].
    split; [exact Hs|]; split; [exact Hf|]; split; [exact Hc|]; reflexivity.
Qed.

(** On a healthy store whose cache agrees with it, [getMetadataById] of a
    stored record fulfils with the record: the display code is
    [companyName-companyId], the poster path is the stored one behind the
    proxy prefix, there is one tag (one star) for each junction row of the
    record, in table order, with the id and name of the entity the row points
    to ([null] where the entity is missing), and the series is read under the
    id of the junction row; the store is left as it was. *)
Theorem getMetadataById_found (id : nat) (w : World) (r : metadata_row) :
  fuse w = None ->
  cache_agrees w ->
  metadata_by_id id w = Some r ->
  exists info w',
    getMetadataById id w = (Fulfilled (Some info), w')
    /\ same_store w w'
    /\ assembled w r info.
Proof.
  intros Hf Hc Hr.
  destruct (getMetadataById_reader w id w (same_store_refl w) Hf Hc)
    as (res & w' & E & Hs & _ & _ & Hres).
  rewrite Hr in Hres; destruct Hres as (info & -> & Hi).
  exists info, w'; auto.
Qed.

Lemma getMetadataById_found_witness :
  exists info w',
    getMetadataById 1 sample_store = (Fulfilled (Some info), w')
    /\ same_store sample_store w'
    /\ assembled sample_store
         {| m_id := 1; m_title := "T"; m_companyName := "ABC"; m_companyId := "001";
            m_posterFileURL := "/cover/x.jpg"; m_releaseDate := "2020-01-01";
            m_updateTime := 7 |} info.
Proof.
  apply (getMetadataById_found 1 sample_store);
    [reflexivity | intros k id r H; cbv in H; discriminate H | reflexivity].
Defined.

(* ================================================================== *)
(** ** The list functions *)



Lemma insert_desc_in {R} (lt : R -> R -> bool) (x y : R) (l : list R) :
  In y (insert_desc lt x l) <-> y = x \/ In y l.
Proof.
  induction l as [|z l IH]; cbn [insert_desc].
  - simpl; intuition.
  - destruct (lt x z); simpl; [rewrite IH|]; intuition.
Qed.

Lemma orderBy_desc_in {R} (lt : R -> R -> bool) (y : R) (l : list R) :
  In y (orderBy_desc lt l) <-> In y l.
Proof.
  unfold orderBy_desc; induction l as [|x l IH]; cbn [fold_right];
    [reflexivity|].
  rewrite insert_desc_in, IH; simpl; intuition.
Qed.

Lemma paginate_length {R} (size page : nat) (l : list R) :
  length (paginate size page l) = Nat.min size (length l - (page - 1) * size).
Proof. unfold paginate; rewrite length_firstn, length_skipn; reflexivity. Qed.

Lemma paginate_in {R} (size page : nat) (l : list R) (x : R) :
  In x (paginate size page l) -> In x l.
Proof.
  unfold paginate; intros H.
  rewrite <- (firstn_skipn ((page - 1) * size) l); apply in_or_app; right.
  rewrite <- (firstn_skipn size (skipn _ l)); apply in_or_app; left; exact H.
Qed.

Lemma filter_all {A} (l : list A) : filter (fun _ => true) l = l.
Proof. induction l as [|x l IH]; cbn [filter]; [|rewrite IH]; reflexivity. Qed.


Lemma getMetadataListByMetaId_reader (k : kind) (metaId page size : nat) (w : World) :
  reader_at w (getMetadataListByMetaId k metaId page size)
    (fun l =>
       l_total l = length (junctions_to k metaId w)
       /\ Forall2 (record_read w) (page_of_links k metaId page size w) (l_data l)
       /\ names_row (l_metaInfo l) (entity_by_id k metaId w)).
Proof.
  unfold getMetadataListByMetaId, db_page, db_count.
  eapply reader_await
    with (P := fun result => result = page_of_links k metaId page size w).
  { apply reader_query; intros w0 Hs; unfold page_of_links, junctions_to.
    destruct Hs as (_ & _ & -> & _); reflexivity. }
  intros ? ->.
  eapply reader_await
    with (P := fun total => total = length (junctions_to k metaId w)).
  { apply reader_query; intros w0 Hs; unfold junctions_to.
    destruct Hs as (_ & _ & -> & _); reflexivity. }
  intros ? ->.
  eapply reader_await;
    [apply reader_for_await; intros j _; apply getMetadataById_reader|].
  intros processed Hp.
  eapply reader_await; [apply getMetaInfoByMetaId_reader|].
  intros metaInfo Hm; apply reader_ret; auto.
Qed.



(** Only records linked to the entity are listed: every record in [data]
    is the record of a junction row that points to the entity. *)
Theorem getMetadataListByMetaId_only_linked (k : kind) (metaId page size : nat)
  (w : World) (l : listing_by_meta) (w' : World) (info : metadata_info) :
  fuse w = None ->
  cache_agrees w ->
  getMetadataListByMetaId k metaId page size w = (Fulfilled l, w') ->
  In (Some info) (l_data l) ->
  exists j, In j (mappings w k)
            /\ j_entityId j = metaId
            /\ j_metadataId j = m_id (i_row info).
Proof.
  intros Hf Hc E Hin.
  destruct (getMetadataListByMetaId_reader k metaId page size w w
              (same_store_refl w) Hf Hc)
    as (l0 & w0 & E0 & _ & _ & _ & _ & Hd & _).
  rewrite E in E0; injection E0 as <- <-.
  assert (H : forall rows data,
             Forall2 (record_read w) rows data -> In (Some info) data ->
             exists j, In j rows /\ j_metadataId j = m_id (i_row info)).
  { induction 1 as [|j res rows data Hj _ IH]; intros Hi; [contradiction|].
    destruct Hi as [->|Hi].
    - exists j; split; [left; reflexivity|].
      unfold record_read in Hj.
      destruct (metadata_by_id (j_metadataId j) w) as [r|] eqn:Er; [|discriminate].
      destruct Hj as (i0 & [= <-] & Ha).
      destruct Ha as (_ & _ & -> & _).
      unfold metadata_by_id in Er; apply find_some in Er.
      destruct Er as [_ Er]; apply Nat.eqb_eq in Er; symmetry; exact Er.
    - destruct (IH Hi) as (j0 & Hj0 & Hm); exists j0; split; [right|]; assumption. }
  destruct (H _ _ Hd Hin) as (j & Hj & Hm).
  exists j; unfold page_of_links in Hj.
  apply paginate_in, orderBy_desc_in in Hj.
  unfold junctions_to in Hj; apply filter_In in Hj; destruct Hj as [Hj He].
  apply Nat.eqb_eq in He; auto.
Qed.

Lemma getMetadataListByMetaId_only_linked_witness :
  exists info j,
    In j (mappings sample_store Tag)
    /\ j_entityId j = 2
    /\ j_metadataId j = m_id (i_row info).
Proof.
  eexists.
  eapply (getMetadataListByMetaId_only_linked Tag 2 1 10 sample_store).
  - reflexivity.
  - intros k id r H; cbv in H; discriminate H.
  - vm_compute; reflexivity.
  - left; reflexivity.
Defined.



(** On a healthy store [getMetaList] fulfils and leaves the world as it
    was: [total] counts all the rows of the table and [data] is the page of
    the table, unchanged for tags and series; for stars every row comes back
    with the proxy prefix put before its stored photo path, and before the
    word [null] when the star has no photo. *)
Theorem getMetaList_page (k : kind) (page size : nat) (w : World) :
  fuse w = None ->
  exists l,
    getMetaList k page size w = (Fulfilled l, w)
    /\ total l = length (entities w k)
    /\ length (data l) = Nat.min size (total l - (page - 1) * size)
    /\ data l = map (fun item => match k with
                                | Star => prefix_photo w item
                                | _ => item
                                end)
                    (paginate size page (entities w k))
    /\ (k = Star ->
        forall item, In item (data l) ->
        exists r, In r (entities w Star)
                  /\ e_id item = e_id r /\ e_name item = e_name r
                  /\ e_photoURL item
                     = Some (proxyPrefix w
                             ++ match e_photoURL r with
                                | Some p => p
                                | None => "null"
                                end)%string).
Proof.
  intros Hf.
  unfold getMetaList, await, db_page, db_count.
  rewrite !query_healthy by exact Hf.
  rewrite !filter_all; cbn [ret].
  eexists; split; [reflexivity|]; cbn [total data].
  split; [reflexivity|].
  split; [rewrite length_map, paginate_length; reflexivity|].
  split; [reflexivity|].
  intros -> item Hin.
  apply in_map_iff in Hin; destruct Hin as (r & <- & Hr).
  exists r; split; [apply (paginate_in _ _ _ _ Hr)|].
  repeat split.
Qed.

Lemma getMetaList_page_witness :
  exists l,
    getMetaList Star 1 10 sample_store = (Fulfilled l, sample_store)
    /\ total l = length (entities sample_store Star)
    /\ length (data l) = Nat.min 10 (total l - (1 - 1) * 10)
    /\ data l = map (fun item => prefix_photo sample_store item)
                    (paginate 10 1 (entities sample_store Star))
    /\ (Star = Star ->
        forall item, In item (data l) ->
        exists r, In r (entities sample_store Star)
                  /\ e_id item = e_id r /\ e_name item = e_name r
                  /\ e_photoURL item
                     = Some (proxyPrefix sample_store
                             ++ match e_photoURL r with
                                | Some p => p
                                | None => "null"
                                end)%string).
Proof. apply (getMetaList_page Star 1 10 sample_store); reflexivity. Defined.

(* ================================================================== *)
(** ** Entity resolver and attacher on any store *)

Lemma query_cases {A} (run : async A) (w : World) :
  query run w = run w
  \/ (exists f, query run w = run (with_fuse f w))
  \/ query run w = (Rejected StoreError, with_fuse None w).
Proof.
  unfold query; destruct (fuse w) as [[|n]|]; eauto.
Qed.

Lemma kind_eqb_neq (k k' : kind) : k' <> k -> kind_eqb k k' = false.
Proof. destruct k, k'; intros H; try reflexivity; exfalso; apply H; reflexivity. Qed.

Lemma resolver_frame_refl (k : kind) (w w' : World) :
  metadatas w' = metadatas w -> mappings w' = mappings w ->
  entities w' = entities w -> ignored w' = ignored w ->
  cache_entries w' = cache_entries w -> network w' = network w ->
  resolver_frame k w w'.
Proof.
  intros Hm Hj He Hi Hc Hn; unfold resolver_frame; rewrite He.
  repeat split; auto.
  exists []; rewrite app_nil_r; reflexivity.
Qed.

Lemma resolver_frame_trans (k : kind) (w1 w2 w3 : World) :
  resolver_frame k w1 w2 -> resolver_frame k w2 w3 -> resolver_frame k w1 w3.
Proof.
  intros (A1 & A2 & A3 & [l1 A4] & A5 & A6 & A7) (B1 & B2 & B3 & [l2 B4] & B5 & B6 & B7).
  unfold resolver_frame; repeat split; try congruence.
  - intros k' Hk; rewrite B3, A3; auto.
  - exists (l1 ++ l2); rewrite B4, A4, app_assoc; reflexivity.
Qed.

Lemma lookup_outcome (k : kind) (name : string) (w : World) :
  match getMetaId_lookup k name w with
  | (Fulfilled res, w') =>
      res = find (fun r => String.eqb (e_name r) name) (entities w k)
      /\ resolver_frame k w w' /\ entities w' = entities w
  | (Rejected e, w') => e = StoreError /\ resolver_frame k w w' /\ entities w' = entities w
  | (Pending, _) => False
  end.
Proof.
  unfold getMetaId_lookup, db_first.
  destruct (query_cases
              (fun w0 => (Fulfilled (find (fun r => String.eqb (e_name r) name)
                                          (entities w0 k)), w0)) w)
    as [->|[[f ->]| ->]].
  - split; [reflexivity|]; split; [apply resolver_frame_refl|]; reflexivity.
  - split; [reflexivity|]; split; [apply resolver_frame_refl|]; reflexivity.
  - split; [reflexivity|]; split; [apply resolver_frame_refl|]; reflexivity.
Qed.

Lemma create_outcome (k : kind) (name : string) (photoURL : option string)
  (trx : nat) (w : World) :
  match getMetaId_create k name photoURL trx w with
  | (Fulfilled id, w') =>
      (exists r, In r (entities w' k) /\ e_id r = id /\ e_name r = name)
      /\ resolver_frame k w w'
  | (Rejected e, w') => e = StoreError /\ resolver_frame k w w' /\ entities w' = entities w
  | (Pending, _) => False
  end.
Proof.
  unfold getMetaId_create, insert_entity.
  match goal with
  | |- context [query ?run w] =>
      destruct (query_cases run w) as [->|[[f ->]| ->]]
  end.
  - destruct (is_open trx w).
    + split.
      * exists (new_entity name photoURL w (next_id (map e_id (entities w k)))).
        split; [|split; reflexivity].
        cbn [log_write with_trx with_entities entities]; rewrite kind_eqb_refl.
        apply in_or_app; right; left; reflexivity.
      * unfold resolver_frame.
        cbn [log_write with_trx with_entities entities metadatas mappings ignored
             cache_entries network].
        repeat split.
        -- intros k' Hk; rewrite kind_eqb_neq by exact Hk; reflexivity.
        -- rewrite kind_eqb_refl; eauto.
    + split; [reflexivity|]; split; [apply resolver_frame_refl|]; reflexivity.
  - change (is_open trx (with_fuse f w)) with (is_open trx w).
    destruct (is_open trx w).
    + split.
      * exists (new_entity name photoURL w (next_id (map e_id (entities w k)))).
        split; [|split; reflexivity].
        cbn [log_write with_trx with_entities with_fuse entities];
          rewrite kind_eqb_refl.
        apply in_or_app; right; left; reflexivity.
      * unfold resolver_frame.
        cbn [log_write with_trx with_entities with_fuse entities metadatas mappings
             ignored cache_entries network].
        repeat split.
        -- intros k' Hk; rewrite kind_eqb_neq by exact Hk; reflexivity.
        -- rewrite kind_eqb_refl; eauto.
    + split; [reflexivity|]; split; [apply resolver_frame_refl|]; reflexivity.
  - split; [reflexivity|]; split; [apply resolver_frame_refl|]; reflexivity.
Qed.

(** On any store, failing or not, [getMetaId] settles.  When it fulfils,
    the table of its kind holds a row with the returned id and the name; when
    the store fails it rejects with the store's error and no table of
    entities has changed.  In both cases it has at most added rows at the end
    of the table of its kind: the base rows, the junction rows, the tables of
    the other kinds, the ignore register and the cache are as they were. *)
Theorem getMetaId_outcome (k : kind) (name : string) (photoURL : option string)
  (trx : nat) (w : World) :
  match getMetaId k name photoURL trx w with
  | (Fulfilled id, w') =>
      (exists r, In r (entities w' k) /\ e_id r = id /\ e_name r = name)
      /\ resolver_frame k w w'
  | (Rejected e, w') =>
      e = StoreError /\ resolver_frame k w w' /\ entities w' = entities w
  | (Pending, _) => False
  end.
Proof.
  unfold getMetaId, try_catch, await, throw.
  pose proof (lookup_outcome k name w) as Hl.
  destruct (getMetaId_lookup k name w) as [[[r|]|e|] w1]; try contradiction.
  - destruct Hl as (Hr & Hfr & _); cbn [ret]; split; [|exact Hfr].
    symmetry in Hr; apply find_some in Hr; destruct Hr as [Hin Hn].
    apply String.eqb_eq in Hn.
    destruct Hfr as (_ & _ & _ & [l Hl] & _).
    exists r; split; [rewrite Hl; apply in_or_app; left; exact Hin | auto].
  - destruct Hl as (_ & Hfr & He1).
    pose proof (create_outcome k name photoURL trx w1) as Hc.
    destruct (getMetaId_create k name photoURL trx w1) as [[id|e|] w2];
      try contradiction.
    + destruct Hc as [Hr Hfr2]; split; [exact Hr|].
      eapply resolver_frame_trans; eauto.
    + destruct Hc as (-> & Hfr2 & He2); split; [reflexivity|].
      split; [eapply resolver_frame_trans; eauto | congruence].
  - destruct Hl as (-> & Hfr & He); auto.
Qed.

Lemma getMetaId_fulfilled_row (k : kind) (name : string) (photoURL : option string)
  (trx : nat) (w : World) :
  match getMetaId k name photoURL trx w with
  | (Fulfilled id, w') => exists r, In r (entities w' k) /\ e_id r = id /\ e_name r = name
  | _ => True
  end.
Proof.
  unfold getMetaId, try_catch, await, throw.
  pose proof (lookup_outcome k name w) as Hl.
  destruct (getMetaId_lookup k name w) as [[[r|]|e|] w1]; try exact I.
  - destruct Hl as (Hr & _ & He); cbn [ret].
    symmetry in Hr; apply find_some in Hr; destruct Hr as [Hin Hn].
    apply String.eqb_eq in Hn; exists r; rewrite He; auto.
  - pose proof (create_outcome k name photoURL trx w1) as Hc.
    destruct (getMetaId_create k name photoURL trx w1) as [[id|e|] w2];
      try exact I.
    apply Hc.
Qed.

Lemma junctions_snoc (metadataId id : nat) (l : list mapping_row)
  (r : mapping_row) :
  j_entityId r = id -> j_metadataId r = metadataId ->
  filter (fun r => Nat.eqb (j_entityId r) id && Nat.eqb (j_metadataId r) metadataId)
         (l ++ [r]) <> [].
Proof.
  intros Hi Hm; rewrite filter_app; cbn [filter].
  rewrite Hi, Hm, !Nat.eqb_refl; cbn [andb].
  intros H; apply app_eq_nil in H; destruct H as [_ H]; discriminate H.
Qed.

Lemma link_insert_outcome (k : kind) (metadataId id : nat) (w : World) :
  match db_transaction
          (fun trx' => attachMeta_insert k metadataId id trx' ;;; ret 1) w with
  | (Fulfilled n, w') =>
      n = 1 /\ entities w' = entities w /\ junctions k metadataId id w' <> []
  | _ => True
  end.
Proof.
  unfold db_transaction.
  destruct (begin_trx w) as [t wb] eqn:Eb.
  assert (Et : t = trx_seq w) by (unfold begin_trx in Eb; congruence).
  assert (Ew : wb = snd (begin_trx w)) by (rewrite Eb; reflexivity).
  assert (Ho : is_open t wb = true) by (subst; apply is_open_begin).
  unfold await, attachMeta_insert, insert_mapping.
  match goal with
  | |- context [query ?run wb] =>
      destruct (query_cases run wb) as [->|[[f ->]| ->]]
  end; [| |exact I].
  - rewrite Ho; cbn [ret].
    split; [reflexivity|]; split; [subst wb; reflexivity|].
    unfold junctions; cbn; rewrite kind_eqb_refl.
    apply junctions_snoc; reflexivity.
  - change (is_open t (with_fuse f wb)) with (is_open t wb).
    rewrite Ho; cbn [ret].
    split; [reflexivity|]; split; [subst wb; reflexivity|].
    unfold junctions; cbn; rewrite kind_eqb_refl.
    apply junctions_snoc; reflexivity.
Qed.

Lemma attach_link_outcome (k : kind) (metadataId id : nat) (w : World) :
  match new_Promise (attach_link k metadataId id) w with
  | (Fulfilled n, w') =>
      n = 1 /\ entities w' = entities w /\ junctions k metadataId id w' <> []
  | (Rejected _, _) => False
  | (Pending, _) => True
  end.
Proof.
  assert (Tail : forall w0,
    entities w0 = entities w -> mappings w0 = mappings w ->
    match new_Promise
            (db_transaction (fun trx' =>
               if Nat.eqb (length (junctions k metadataId id w)) 0
               then attachMeta_insert k metadataId id trx' ;;; ret 1
               else ret 1)) w0 with
    | (Fulfilled n, w') =>
        n = 1 /\ entities w' = entities w /\ junctions k metadataId id w' <> []
    | (Rejected _, _) => False
    | (Pending, _) => True
    end).
  { intros w0 He Hm; unfold new_Promise.
    destruct (junctions k metadataId id w) as [|j js] eqn:Ej; cbn [length Nat.eqb].
    - pose proof (link_insert_outcome k metadataId id w0) as H.
      destruct (db_transaction _ w0) as [[n|e|] w']; auto.
      rewrite <- He; exact H.
    - unfold db_transaction; cbn [begin_trx ret commit close_trx].
      split; [reflexivity|]; split; [exact He|].
      unfold junctions; cbn [commit close_trx with_trx mappings]; rewrite Hm.
      fold (junctions k metadataId id w); rewrite Ej; discriminate. }
  unfold new_Promise, attach_link, await at 1, attachMeta_count, db_count.
  fold (junctions k metadataId id).
  match goal with
  | |- context [query ?run w] =>
      destruct (query_cases run w) as [->|[[f ->]| ->]]
  end; [| |exact I].
  - apply (Tail w); reflexivity.
  - apply (Tail (with_fuse f w)); reflexivity.
Qed.

(** On any store, failing or not, [attachMeta] never rejects: it fulfils
    with 1 or never settles.  When it fulfils, the table of its kind holds a
    row with the name, and the record has a junction row to that row. *)
Theorem attachMeta_outcome (k : kind) (metadataId : nat) (name : string)
  (photoURL : option string) (trx : nat) (w : World) :
  match attachMeta k metadataId name photoURL trx w with
  | (Fulfilled n, w') =>
      n = 1
      /\ exists r, In r (entities w' k) /\ e_name r = name
                   /\ junctions k metadataId (e_id r) w' <> []
  | (Rejected _, _) => False
  | (Pending, _) => True
  end.
Proof.
  rewrite attachMeta_unfold.
  pose proof (getMetaId_fulfilled_row k name photoURL trx w) as Hg.
  destruct (getMetaId k name photoURL trx w) as [[id|e|] w1]; try exact I.
  destruct Hg as (r & Hin & Hid & Hn).
  pose proof (attach_link_outcome k metadataId id w1) as Hl.
  destruct (new_Promise (attach_link k metadataId id) w1) as [[n|e|] w2]; auto.
  destruct Hl as (-> & He & Hj); split; [reflexivity|].
  exists r; rewrite He, Hid; auto.
Qed.

(* ================================================================== *)
(** ** Fetching and the creation path, further facts *)

Lemma pRetry_first_answer (n : nat) :
  forall r w d rest,
    network w = repeat None n ++ Some d :: rest ->
    n <= r ->
    pRetry r http_get w = (Fulfilled d, with_network rest (S n + requests w) w).
Proof.
  induction n as [|n IH]; intros r w d rest Hn Hr.
  - cbn [repeat app] in Hn.
    destruct r; cbn [pRetry]; unfold http_get; rewrite Hn; reflexivity.
  - cbn [repeat app] in Hn.
    destruct r as [|r]; [lia|].
    change (pRetry (S r) http_get w)
      with (match http_get w with
            | (Some a, w') => (Fulfilled a, w')
            | (None, w') => pRetry r http_get w'
            end).
    unfold http_get at 1; rewrite Hn.
    rewrite (IH r _ d rest) by (try reflexivity; lia).
    cbn [with_network requests].
    replace (S n + S (requests w)) with (S (S n) + requests w) by lia.
    reflexivity.
Qed.

(** [fetchNew] stops at the first answer: when the first [n] requests fail,
    with [n] at most 5, and the next one is answered, it makes exactly [n + 1]
    requests and leaves the rest of the network script untouched; it fulfils
    with what the extraction returns for the answer, and rejects with what
    the extraction throws. *)
Theorem fetchNew_first_answer (JAVID : string) (n : nat) (w : World)
  (dom : document) (rest : list (option document)) :
  network w = repeat None n ++ Some dom :: rest ->
  n <= 5 ->
  fetchNew JAVID w
  = (match extractFields dom with
     | Return JAVinfo => Fulfilled JAVinfo
     | Throw e => Rejected e
     end,
     with_network rest (S n + requests w) w).
Proof.
  intros Hn Hle; unfold fetchNew, await.
  rewrite (pRetry_first_answer n 5 w dom rest Hn Hle).
  destruct (extractFields dom); reflexivity.
Qed.

Lemma fetchNew_first_answer_witness :
  fetchNew "ABC-001" (Sample.fresh [None; None; Some Sample.page_without_movie; None])
  = (match extractFields Sample.page_without_movie with
     | Return JAVinfo => Fulfilled JAVinfo
     | Throw e => Rejected e
     end,
     with_network [None] (S 2 + 0)
       (Sample.fresh [None; None; Some Sample.page_without_movie; None])).
Proof.
  apply (fetchNew_first_answer "ABC-001" 2
           (Sample.fresh [None; None; Some Sample.page_without_movie; None])
           Sample.page_without_movie [None]);
    [reflexivity | lia].
Defined.

(** A key already stored is served from the store: [getMetadataId] fulfils
    with the id of its base row and leaves the world as it was; it makes no
    request and opens no transaction. *)
Theorem getMetadataId_known (JAVID companyName companyId : string)
  (rest : list string) (sched : list nat) (w : World) (r : metadata_row) :
  fuse w = None ->
  split "-"%char JAVID = companyName :: companyId :: rest ->
  find (fun r => String.eqb (m_companyName r) companyName
                 && String.eqb (m_companyId r) companyId) (metadatas w) = Some r ->
  m_id r <> 0 ->
  getMetadataId JAVID sched w = (Fulfilled (m_id r), w).
Proof.
  intros Hf Hs Hr Hid.
  unfold getMetadataId, new_Promise, try_catch; rewrite Hs.
  unfold await, find_by_key, db_first.
  rewrite query_healthy by exact Hf.
  rewrite Hr.
  destruct (Nat.eqb_spec (m_id r) 0) as [E|_]; [contradiction|].
  reflexivity.
Qed.

Lemma getMetadataId_known_witness :
  getMetadataId "ABC-001" [] sample_store = (Fulfilled 1, sample_store).
Proof.
  apply (getMetadataId_known "ABC-001" "ABC" "001" [] [] sample_store
           {| m_id := 1; m_title := "T"; m_companyName := "ABC"; m_companyId := "001";
              m_posterFileURL := "/cover/x.jpg"; m_releaseDate := "2020-01-01";
              m_updateTime := 7 |});
    [reflexivity | reflexivity | reflexivity | discriminate].
Defined.

(** A key without a dash never settles: [JAVID.split('-')[1]] is
    undefined, the lookup of line 116 throws, and the [catch] of line 162
    only logs.  The world is left as it was: no request, no ignore entry. *)
Theorem getMetadataId_without_dash (JAVID : string) (sched : list nat) (w : World) :
  nth_error (split "-"%char JAVID) 1 = None ->
  getMetadataId JAVID sched w = (Pending, w).
Proof.
  intros H; unfold getMetadataId, new_Promise, try_catch.
  destruct (split "-"%char JAVID) as [|a [|b l]]; try discriminate; reflexivity.
Qed.

Lemma getMetadataId_without_dash_witness :
  getMetadataId "ABC001" [] (Sample.fresh [Some Sample.page_ABC_001])
  = (Pending, Sample.fresh [Some Sample.page_ABC_001]).
Proof. apply getMetadataId_without_dash; reflexivity. Defined.

Lemma quiet_refl (w : World) : fuse w = None -> quiet w w.
Proof. unfold quiet; auto. Qed.

Lemma quiet_trans (w1 w2 w3 : World) : quiet w1 w2 -> quiet w2 w3 -> quiet w1 w3.
Proof. unfold quiet; intuition congruence. Qed.

Lemma attach_step_quiet (c : attach_call) (w : World) :
  fuse w = None -> quiet w (snd (attach_step c w)).
Proof.
  intros Hf; unfold attach_step.
  destruct (a_pc c) as [[| |id|e]|id|id count|id t|t| |]; cbn [resolve_step].
  - unfold getMetaId_lookup, db_first; rewrite query_healthy by exact Hf.
    destruct (find _ _); apply quiet_refl, Hf.
  - unfold getMetaId_create, insert_entity; rewrite query_healthy by exact Hf.
    destruct (is_open (a_trx c) w); repeat split; exact Hf.
  - apply quiet_refl, Hf.
  - apply quiet_refl, Hf.
  - unfold attachMeta_count, db_count; rewrite query_healthy by exact Hf.
    apply quiet_refl, Hf.
  - destruct (begin_trx w) as [t w'] eqn:Eb.
    assert (Hw : w' = snd (begin_trx w)) by (rewrite Eb; reflexivity).
    destruct (Nat.eqb count 0); subst w'; repeat split; exact Hf.
  - unfold attachMeta_insert, insert_mapping; rewrite query_healthy by exact Hf.
    destruct (is_open t w) eqn:Eo.
    + repeat split; exact Hf.
    + cbn [snd]; rewrite rollback_nothing by (apply writes_of_closed, Eo).
      repeat split; exact Hf.
  - repeat split; exact Hf.
  - apply quiet_refl, Hf.
  - apply quiet_refl, Hf.
Qed.

Lemma step_nth_quiet (i : nat) :
  forall cs w, fuse w = None -> quiet w (snd (step_nth i cs w)).
Proof.
  induction i as [|i IH]; intros [|c cs] w Hf; simpl;
    try (apply quiet_refl, Hf).
  - pose proof (attach_step_quiet c w Hf) as H.
    destruct (attach_step c w); exact H.
  - pose proof (IH cs w Hf) as H.
    destruct (step_nth i cs w); exact H.
Qed.

Lemma run_sched_quiet (sched : list nat) :
  forall cs w, fuse w = None -> quiet w (snd (run_sched sched cs w)).
Proof.
  induction sched as [|i s IH]; intros cs w Hf; simpl.
  - apply quiet_refl, Hf.
  - pose proof (step_nth_quiet i cs w Hf) as H.
    destruct (step_nth i cs w) as [cs' w']; simpl in H.
    eapply quiet_trans; [exact H | apply IH, H].
Qed.

Lemma Promise_all_quiet (sched : list nat) (cs : list attach_call) (w : World) :
  fuse w = None -> quiet w (snd (Promise_all sched cs w)).
Proof.
  intros Hf; unfold Promise_all.
  pose proof (run_sched_quiet (sched ++ to_the_end (length cs)) cs w Hf) as H.
  destruct (run_sched _ cs w) as [cs' w'].
  destruct (forallb attach_resolved cs'); exact H.
Qed.

(** The creation of a record, when the page gives tags and stars: the call
    fulfils with the id of the new base row, which is the last row of
    [metadatas] and holds the extracted fields. *)
Lemma creation_succeeds (JAVID companyName companyId : string) (rest : list string)
  (sched : list nat) (w : World) (dom : document) (d : JAVinfo) :
  fuse w = None ->
  split "-"%char JAVID = companyName :: companyId :: rest ->
  unseen companyName companyId w ->
  fetched w = Some dom ->
  extractFields dom = Return (Some d) ->
  unusable (Some d) = false ->
  exists w',
    getMetadataId JAVID sched w
    = (Fulfilled (next_id (map m_id (metadatas w))), w')
    /\ metadatas w'
       = metadatas w
         ++ [new_metadata d companyName companyId w (next_id (map m_id (metadatas w)))]
    /\ fuse w' = None
    /\ cache_entries w' = cache_entries w
    /\ proxyPrefix w' = proxyPrefix w.
Proof.
  intros Hf Hs Hu Hd He Hus.
  rewrite (getMetadataId_unseen _ _ _ _ _ _ Hf Hs Hu).
  unfold new_Promise, try_catch, db_transaction.
  destruct (begin_trx w) as [t w1] eqn:Eb.
  assert (Ht : t = trx_seq w) by (unfold begin_trx in Eb; congruence).
  assert (Hw1 : w1 = snd (begin_trx w)) by (rewrite Eb; reflexivity).
  destruct (pRetry_http_get 5 w1) as (net' & n & E & _).
  assert (Hnet : network w1 = network w) by (subst w1; reflexivity).
  unfold fetched in Hd; rewrite Hnet, Hd in E.
  set (w2 := with_network net' (n + requests w1) w1) in E.
  assert (Hf2 : fuse w2 = None) by (subst w2 w1; exact Hf).
  assert (Hc : create_handler JAVID companyName companyId sched t w1
               = create_with JAVID companyName companyId sched t (Some d) w2).
  { unfold create_handler, await at 1, fetchNew, await at 1.
    rewrite E, He; reflexivity. }
  rewrite Hc; unfold create_with.
  cbn [unusable] in Hus; rewrite Hus.
  unfold await at 1, insert_metadata.
  rewrite query_healthy by exact Hf2.
  assert (Ho : is_open t w2 = true)
    by (subst w2 w1 t; apply (is_open_begin w)).
  rewrite Ho.
  set (id := next_id (map m_id (metadatas w2))).
  set (w3 := log_write t (Metadatas, id) _).
  assert (Hf3 : fuse w3 = None) by exact Hf2.
  assert (Ho3 : is_open t w3 = true)
    by (unfold w3; rewrite is_open_log_write; exact Ho).
  assert (Ht3 : t < trx_seq w3) by (subst w3 w2 w1 t; simpl; lia).
  pose proof (Promise_all_keeps sched (promises d id t) w3 Hf3) as (Kf & Km & _).
  pose proof (Promise_all_quiet sched (promises d id t) w3 Hf3) as (_ & Qc & Qp & _).
  pose proof (Promise_all_fulfils t sched (promises d id t) w3
                (calls_ok_start t _ w3 Hf3 Ho3 Ht3 (promises_start d id t))) as Hp.
  unfold await.
  destruct (Promise_all sched (promises d id t) w3) as [p w4];
    cbn [fst snd] in Kf, Km, Qc, Qp, Hp; subst p; cbn [ret].
  exists (commit t w4).
  split; [subst id w2 w1; reflexivity|].
  cbn [commit close_trx with_trx metadatas fuse cache_entries proxyPrefix].
  rewrite Km, Kf, Qc, Qp; subst w3 w2 w1; repeat split.
Qed.

Lemma fresh_id_absent (l : list metadata_row) :
  find (fun r => Nat.eqb (m_id r) (next_id (map m_id l))) l = None.
Proof.
  unfold next_id.
  assert (H : forall r, In r l -> m_id r <= list_max (map m_id l)).
  { intros r Hin.
    assert (Hall : Forall (fun k => k <= list_max (map m_id l)) (map m_id l))
      by (apply list_max_le; lia).
    rewrite Forall_forall in Hall; apply Hall, in_map, Hin. }
  destruct (find _ l) as [r|] eqn:E; [|reflexivity].
  apply find_some in E; destruct E as [Hin E].
  apply Nat.eqb_eq in E; apply H in Hin; lia.
Qed.

(** Get-or-create is idempotent: once a record was created for a key, every
    later call with the key fulfils with the same id and leaves the world as
    it is, under any schedule; it fetches nothing and inserts nothing. *)
Theorem getMetadataId_again (JAVID companyName companyId : string)
  (rest : list string) (sched sched' : list nat) (w : World) (dom : document)
  (d : JAVinfo) :
  fuse w = None ->
  split "-"%char JAVID = companyName :: companyId :: rest ->
  unseen companyName companyId w ->
  fetched w = Some dom ->
  extractFields dom = Return (Some d) ->
  unusable (Some d) = false ->
  exists id w',
    getMetadataId JAVID sched w = (Fulfilled id, w')
    /\ getMetadataId JAVID sched' w' = (Fulfilled id, w').
Proof.
  intros Hf Hs Hu Hd He Hus.
  destruct (creation_succeeds _ _ _ _ sched _ _ _ Hf Hs Hu Hd He Hus)
    as (w' & E & Hm & Hf' & _).
  exists (next_id (map m_id (metadatas w))), w'; split; [exact E|].
  assert (Hr : find (fun r => String.eqb (m_companyName r) companyName
                              && String.eqb (m_companyId r) companyId) (metadatas w')
               = Some (new_metadata d companyName companyId w
                                    (next_id (map m_id (metadatas w))))).
  { rewrite Hm; apply find_app_new; [exact Hu|].
    cbn [m_companyName m_companyId new_metadata].
    rewrite !String.eqb_refl; reflexivity. }
  unfold getMetadataId, new_Promise, try_catch; rewrite Hs.
  unfold await, find_by_key, db_first.
  rewrite query_healthy by exact Hf'.
  rewrite Hr; reflexivity.
Qed.

Lemma getMetadataId_again_witness :
  exists id w',
    getMetadataId "ABC-001" [2; 0; 1] (Sample.fresh [None; Some Sample.page_ABC_001])
    = (Fulfilled id, w')
    /\ getMetadataId "ABC-001" [1; 1] w' = (Fulfilled id, w').
Proof.
  apply (getMetadataId_again "ABC-001" "ABC" "001" [] [2; 0; 1] [1; 1]
           (Sample.fresh [None; Some Sample.page_ABC_001]) Sample.page_ABC_001
           (match extractFields Sample.page_ABC_001 with
            | Return (Some d) => d
            | _ => empty_info
            end));
    reflexivity.
Defined.

Lemma pRetry_exhausted (r : nat) :
  forall w,
    first_some (firstn (S r) (network w)) = None ->
    pRetry r http_get w
    = (Rejected TransportError,
       with_network (skipn (S r) (network w)) (S r + requests w) w).
Proof.
  induction r as [|r IH]; intros w H.
  - unfold pRetry, http_get.
    destruct (network w) as [|[d|] rest]; [reflexivity | discriminate | reflexivity].
  - change (pRetry (S r) http_get w)
      with (match http_get w with
            | (Some a, w') => (Fulfilled a, w')
            | (None, w') => pRetry r http_get w'
            end).
    unfold http_get at 1.
    destruct (network w) as [|[d|] rest] eqn:En.
    + rewrite IH by (destruct r; reflexivity).
      change (network (with_network [] (S (requests w)) w))
        with (@nil (option document)).
      change (requests (with_network [] (S (requests w)) w)) with (S (requests w)).
      replace (S r + S (requests w)) with (S (S r) + requests w) by lia.
      destruct r; reflexivity.
    + discriminate.
    + change (firstn (S (S r)) (None :: rest)) with (None :: firstn (S r) rest) in H.
      cbn [first_some] in H.
      rewrite IH by exact H.
      change (network (with_network rest (S (requests w)) w)) with rest.
      change (requests (with_network rest (S (requests w)) w)) with (S (requests w)).
      replace (S r + S (requests w)) with (S (S r) + requests w) by lia.
      reflexivity.
Qed.

(** A failed fetch is not remembered.  When all six attempts for an unseen
    key fail, the promise of [getMetadataId] stays pending after six
    requests and leaves the base rows and the ignore register as they were;
    a later call with the same key, once the network answers with a page that
    gives tags and stars, fetches again and fulfils with the id of a new base
    row that carries the key. *)
Theorem getMetadataId_failure_not_remembered (JAVID companyName companyId : string)
  (rest : list string) (sched sched' : list nat) (w : World) (dom : document)
  (d : JAVinfo) :
  fuse w = None ->
  is_open (trx_seq w) w = false ->
  split "-"%char JAVID = companyName :: companyId :: rest ->
  unseen companyName companyId w ->
  fetched w = None ->
  first_some (firstn 6 (skipn 6 (network w))) = Some dom ->
  extractFields dom = Return (Some d) ->
  unusable (Some d) = false ->
  exists w1 id w2 r,
    getMetadataId JAVID sched w = (Pending, w1)
    /\ requests w1 = 6 + requests w
    /\ metadatas w1 = metadatas w
    /\ ignored w1 = ignored w
    /\ getMetadataId JAVID sched' w1 = (Fulfilled id, w2)
    /\ metadatas w2 = metadatas w ++ [r]
    /\ m_id r = id
    /\ m_companyName r = companyName
    /\ m_companyId r = companyId.
Proof.
  intros Hf Hw Hs Hu Hn Hd He Hus.
  set (w1 := close_trx (trx_seq w)
               (with_network (skipn 6 (network w)) (6 + requests w)
                  (snd (begin_trx w)))).
  assert (E1 : getMetadataId JAVID sched w = (Pending, w1)).
  { rewrite (getMetadataId_unseen _ _ _ _ _ _ Hf Hs Hu).
    unfold new_Promise, try_catch, db_transaction.
    destruct (begin_trx w) as [t w0] eqn:Eb.
    assert (Ht : t = trx_seq w) by (unfold begin_trx in Eb; congruence).
    assert (Hw0 : w0 = snd (begin_trx w)) by (rewrite Eb; reflexivity).
    unfold create_handler, await at 1, fetchNew, await at 1.
    assert (Hnet : network w0 = network w) by (subst w0; reflexivity).
    assert (Hreq : requests w0 = requests w) by (subst w0; reflexivity).
    unfold fetched in Hn.
    rewrite (pRetry_exhausted 5 w0) by (rewrite Hnet; exact Hn).
    rewrite Hnet, Hreq.
    rewrite rollback_nothing
      by (subst t w0; apply (writes_of_begin w Hw)).
    subst t w0; reflexivity. }
  assert (Hf1 : fuse w1 = None) by exact Hf.
  assert (Hu1 : unseen companyName companyId w1) by exact Hu.
  assert (Hd1 : fetched w1 = Some dom) by exact Hd.
  destruct (creation_succeeds _ _ _ _ sched' _ _ _ Hf1 Hs Hu1 Hd1 He Hus)
    as (w2 & E2 & Hm & _).
  exists w1, (next_id (map m_id (metadatas w1))), w2,
    (new_metadata d companyName companyId w1 (next_id (map m_id (metadatas w1)))).
  split; [exact E1|].
  split; [reflexivity|]. split; [reflexivity|]. split; [reflexivity|].
  split; [exact E2|]. split; [exact Hm|].
  split; [|split]; reflexivity.
Qed.

Lemma getMetadataId_failure_not_remembered_witness :
  exists w1 id w2 r,
    getMetadataId "ABC-001" []
      (Sample.fresh [None; None; None; None; None; None; Some Sample.page_ABC_001])
    = (Pending, w1)
    /\ requests w1 = 6
    /\ metadatas w1 = []
    /\ ignored w1 = []
    /\ getMetadataId "ABC-001" [] w1 = (Fulfilled id, w2)
    /\ metadatas w2 = [] ++ [r]
    /\ m_id r = id
    /\ m_companyName r = "ABC"
    /\ m_companyId r = "001".
Proof.
  apply (getMetadataId_failure_not_remembered "ABC-001" "ABC" "001" [] [] []
           (Sample.fresh [None; None; None; None; None; None; Some Sample.page_ABC_001])
           Sample.page_ABC_001
           (match extractFields Sample.page_ABC_001 with
            | Return (Some d) => d
            | _ => empty_info
            end));
    reflexivity.
Defined.

(** The base fields survive the round trip: after a record was created
    from a page, on a store with nothing cached, [getMetadataById] of the new
    id returns the title and release date the extraction gave, the cover
    behind the proxy prefix, and the two pieces of the key joined by a dash as
    display code. *)
Theorem create_then_read (JAVID companyName companyId : string)
  (rest : list string) (sched : list nat) (w : World) (dom : document)
  (d : JAVinfo) :
  fuse w = None ->
  cache_entries w = [] ->
  split "-"%char JAVID = companyName :: companyId :: rest ->
  unseen companyName companyId w ->
  fetched w = Some dom ->
  extractFields dom = Return (Some d) ->
  unusable (Some d) = false ->
  exists id w' info w'',
    getMetadataId JAVID sched w = (Fulfilled id, w')
    /\ getMetadataById id w' = (Fulfilled (Some info), w'')
    /\ i_JAVID info = (companyName ++ "-" ++ companyId)%string
    /\ m_id (i_row info) = id
    /\ m_title (i_row info) = title d
    /\ m_releaseDate (i_row info) = releaseDate d
    /\ m_posterFileURL (i_row info) = (proxyPrefix w ++ cover d)%string.
Proof.
  intros Hf Hce Hs Hu Hd He Hus.
  destruct (creation_succeeds _ _ _ _ sched _ _ _ Hf Hs Hu Hd He Hus)
    as (w' & E & Hm & Hf' & Hc' & Hp').
  set (id := next_id (map m_id (metadatas w))) in *.
  assert (Hag : cache_agrees w').
  { intros k i r; unfold cache_find; rewrite Hc', Hce; discriminate. }
  assert (Hr : metadata_by_id id w' = Some (new_metadata d companyName companyId w id)).
  { unfold metadata_by_id; rewrite Hm.
    apply find_app_new; [apply fresh_id_absent|].
    cbn [m_id new_metadata]; apply Nat.eqb_refl. }
  destruct (getMetadataById_reader w' id w' (same_store_refl w') Hf' Hag)
    as (res & w'' & E2 & _ & _ & _ & Hres).
  rewrite Hr in Hres; destruct Hres as (info & -> & Ha).
  destruct Ha as (A1 & A2 & A3 & A4 & A5 & _).
  exists id, w', info, w''.
  split; [exact E|]; split; [exact E2|].
  rewrite A1, A2, A3, A4, A5, Hp'; repeat split.
Qed.

Lemma create_then_read_witness :
  exists id w' info w'',
    getMetadataId "ABC-001" [2; 0; 1] (Sample.fresh [Some Sample.page_ABC_001])
    = (Fulfilled id, w')
    /\ getMetadataById id w' = (Fulfilled (Some info), w'')
    /\ i_JAVID info = "ABC-001"
    /\ m_id (i_row info) = id
    /\ m_title (i_row info) = "T"
    /\ m_releaseDate (i_row info) = "2020-01-01"
    /\ m_posterFileURL (i_row info) = "/proxy/cover/x.jpg".
Proof.
  apply (create_then_read "ABC-001" "ABC" "001" [] [2; 0; 1]
           (Sample.fresh [Some Sample.page_ABC_001]) Sample.page_ABC_001
           (match extractFields Sample.page_ABC_001 with
            | Return (Some d) => d
            | _ => empty_info
            end));
    reflexivity.
Defined.

Lemma ignore_outcome (JAVID companyName companyId : string) (rest : list string)
  (sched : list nat) (w : World) (dom : document) (net : list (option document))
  (JAVinfo : option JAVinfo) :
  fuse w = None ->
  split "-"%char JAVID = companyName :: companyId :: rest ->
  unseen companyName companyId w ->
  network w = Some dom :: net ->
  extractFields dom = Return JAVinfo ->
  unusable JAVinfo = true ->
  getMetadataId JAVID sched w
  = (Fulfilled 0,
     commit (trx_seq w)
       (with_ignored (ignored w ++ [JAVID])
          (with_network net (S (requests w)) (snd (begin_trx w))))).
Proof.
  intros Hf Hs Hu Hn He Hus.
  rewrite (getMetadataId_unseen _ _ _ _ _ _ Hf Hs Hu).
  unfold new_Promise, try_catch, db_transaction.
  cbn [begin_trx].
  unfold create_handler, await at 1, fetchNew, await at 1.
  rewrite (pRetry_first_answer 0 5 _ dom net) by (try exact Hn; lia).
  rewrite He; cbn [of_completion ret]; unfold create_with.
  destruct JAVinfo as [d|]; cbn [unusable] in Hus; [rewrite Hus|]; reflexivity.
Qed.

(** The ignore register is written and never read: a key that was put on
    the register is fetched again by the next call, and put on the register
    once more when its page is still unusable. *)
Theorem getMetadataId_ignored_again (JAVID companyName companyId : string)
  (rest : list string) (sched sched' : list nat) (w : World)
  (dom1 dom2 : document) (net : list (option document))
  (i1 i2 : option JAVinfo) :
  fuse w = None ->
  split "-"%char JAVID = companyName :: companyId :: rest ->
  unseen companyName companyId w ->
  network w = Some dom1 :: Some dom2 :: net ->
  extractFields dom1 = Return i1 -> unusable i1 = true ->
  extractFields dom2 = Return i2 -> unusable i2 = true ->
  exists w1 w2,
    getMetadataId JAVID sched w = (Fulfilled 0, w1)
    /\ In JAVID (ignored w1)
    /\ getMetadataId JAVID sched' w1 = (Fulfilled 0, w2)
    /\ ignored w2 = ignored w ++ [JAVID; JAVID]
    /\ requests w2 = 2 + requests w.
Proof.
  intros Hf Hs Hu Hn He1 Hu1 He2 Hu2.
  eexists; eexists.
  split; [apply (ignore_outcome JAVID companyName companyId rest sched w dom1 _ i1
                   Hf Hs Hu Hn He1 Hu1)|].
  split; [cbn [commit close_trx with_trx with_ignored ignored];
          apply in_or_app; right; left; reflexivity|].
  split.
  - apply (ignore_outcome JAVID companyName companyId rest sched' _ dom2 net i2);
      auto.
  - cbn [commit close_trx with_trx with_ignored with_network begin_trx snd
         ignored requests].
    rewrite <- app_assoc; split; reflexivity.
Qed.

Lemma getMetadataId_ignored_again_witness :
  exists w1 w2,
    getMetadataId "ABC-001" []
      (Sample.fresh [Some Sample.page_no_star; Some Sample.page_no_star])
    = (Fulfilled 0, w1)
    /\ In "ABC-001" (ignored w1)
    /\ getMetadataId "ABC-001" [] w1 = (Fulfilled 0, w2)
    /\ ignored w2 = [] ++ ["ABC-001"; "ABC-001"]
    /\ requests w2 = 2 + 0.
Proof.
  apply (getMetadataId_ignored_again "ABC-001" "ABC" "001" [] [] []
           (Sample.fresh [Some Sample.page_no_star; Some Sample.page_no_star])
           Sample.page_no_star Sample.page_no_star []
           (match extractFields Sample.page_no_star with Return i => i | Throw _ => None end)
           (match extractFields Sample.page_no_star with Return i => i | Throw _ => None end));
    reflexivity.
Defined.

(* ================================================================== *)
(** ** Writing an entity and reading it back *)











